(** * CAMS solar-data pipeline: [set_up.py] and [process_cams_data.py]

    A shallow embedding of the two scripts of the repository, and the
    properties of the chunker, the fetch loop, the row-count validator and
    the orchestrator that its specification states.

    Layout: the Python runtime the scripts rely on (exceptions, name
    resolution, [datetime]) comes first, then the scripts themselves, then
    the lemmas. *)

From Stdlib Require Import ZArith Lia Ascii String.
From stdpp Require Import base strings list gmap pretty.

(** ** Exceptions

    Only subclasses of [Exception] are modelled, so every value of [exn] is
    caught by an [except Exception] clause. *)
Inductive exn : Type :=
| KeyError (key : string)
| ValueError (message : string)
| TimeDataError (data_string : string)
| OverflowError (message : string)
| NameError (name : string)
| UnboundLocalError (name : string)
| AttributeError (message : string)
| TypeError (message : string)
| LibraryError (message : string).

(** [TimeDataError] is the [ValueError] that [datetime.strptime] raises on
    text that is not a date of the requested format; [LibraryError] stands
    for whatever a collaborator outside the repository (pandas, pvlib, os,
    json) raises. *)

Global Instance exn_eq_dec : EqDecision exn.
Proof. solve_decision. Defined.

(** ** Effects

    A run produces the events it caused, in order, and then either a value
    or the exception that ended it. *)
Definition M (E A : Type) : Type := list E * (exn + A).

Global Instance M_ret {E} : MRet (M E) := λ A a, ([], inr a).

Global Instance M_bind {E} : MBind (M E) := λ A B k m,
  match m with
  | (t, inl e) => (t, inl e)
  | (t, inr a) => let '(t', r) := k a in (t ++ t', r)
  end.

Definition raise {E A} (e : exn) : M E A := ([], inl e).

Definition emit {E} (ev : E) : M E unit := ([ev], inr tt).

(** The outcome of a call into a collaborator, as a step of a run. *)
Definition lift {E A} (r : exn + A) : M E A := ([], r).

(** [try: body / except Exception as e: handler e]. *)
Definition try_except {E A} (body : M E A) (handler : exn → M E A) : M E A :=
  match body with
  | (t, inl e) => let '(t', r) := handler e in (t ++ t', r)
  | (t, inr a) => (t, inr a)
  end.

(** The run [m], after the events [t]. *)
Definition after {E A} (t : list E) (m : M E A) : M E A := (t ++ m.1, m.2).

Definition events {E A} (m : M E A) : list E := m.1.

Definition outcome {E A} (m : M E A) : exn + A := m.2.

(** ** Name resolution

    A name that a function body never assigns is looked up in the module's
    globals and then among the builtins; when neither binds it the lookup
    raises [NameError]. *)
Module names.

Definition builtins : list string :=
  [ "abs"; "aiter"; "all"; "anext"; "any"; "ascii"; "bin"; "bool";
    "breakpoint"; "bytearray"; "bytes"; "callable"; "chr"; "classmethod";
    "compile"; "complex"; "delattr"; "dict"; "dir"; "divmod"; "enumerate";
    "eval"; "exec"; "filter"; "float"; "format"; "frozenset"; "getattr";
    "globals"; "hasattr"; "hash"; "help"; "hex"; "id"; "input"; "int";
    "isinstance"; "issubclass"; "iter"; "len"; "list"; "locals"; "map";
    "max"; "memoryview"; "min"; "next"; "object"; "oct"; "open"; "ord";
    "pow"; "print"; "property"; "range"; "repr"; "reversed"; "round";
    "set"; "setattr"; "slice"; "sorted"; "staticmethod"; "str"; "sum";
    "super"; "tuple"; "type"; "vars"; "zip"; "__import__";
    "Ellipsis"; "NotImplemented"; "__debug__"; "copyright"; "credits";
    "license"; "exit"; "quit";
    "BaseException"; "Exception"; "ArithmeticError"; "AssertionError";
    "AttributeError"; "BufferError"; "EOFError"; "FloatingPointError";
    "GeneratorExit"; "ImportError"; "ModuleNotFoundError"; "IndexError";
    "KeyError"; "KeyboardInterrupt"; "LookupError"; "MemoryError";
    "NameError"; "NotImplementedError"; "OSError"; "IOError";
    "EnvironmentError"; "OverflowError"; "RecursionError";
    "ReferenceError"; "RuntimeError"; "StopIteration";
    "StopAsyncIteration"; "SyntaxError"; "IndentationError"; "TabError";
    "SystemError"; "SystemExit"; "TypeError"; "UnboundLocalError";
    "UnicodeError"; "UnicodeEncodeError"; "UnicodeDecodeError";
    "UnicodeTranslateError"; "ValueError"; "ZeroDivisionError";
    "BlockingIOError"; "ChildProcessError"; "ConnectionError";
    "BrokenPipeError"; "ConnectionAbortedError";
    "ConnectionRefusedError"; "ConnectionResetError"; "FileExistsError";
    "FileNotFoundError"; "InterruptedError"; "IsADirectoryError";
    "NotADirectoryError"; "PermissionError"; "ProcessLookupError";
    "TimeoutError"; "Warning"; "UserWarning"; "DeprecationWarning";
    "PendingDeprecationWarning"; "SyntaxWarning"; "RuntimeWarning";
    "FutureWarning"; "ImportWarning"; "UnicodeWarning"; "BytesWarning";
    "ResourceWarning"; "EncodingWarning" ].

(** What a module always has, whatever it imports. *)
Definition module_attributes : list string :=
  [ "__name__"; "__doc__"; "__package__"; "__loader__"; "__spec__";
    "__file__"; "__builtins__" ].

Inductive binding : Type := Local | Global | Builtin | Unbound.

(** [locals]: the parameters of the function and the names its body
    assigns; [globals]: the names the module imports or defines. *)
Definition resolve (locals globals : list string) (name : string) : binding :=
  if bool_decide (name ∈ locals) then Local
  else if bool_decide (name ∈ globals ++ module_attributes) then Global
  else if bool_decide (name ∈ builtins) then Builtin
  else Unbound.

End names.

(** ** [datetime]

    The part of Python's [datetime] module the scripts use, after its
    pure-Python implementation ([_ymd2ord], [_ord2ymd], [__add__],
    [__sub__]). The values the scripts build are midnights of the proleptic
    Gregorian calendar, so a [datetime] is a calendar date and a
    [timedelta] a whole number of days. *)
Module datetime.

Local Open Scope Z_scope.

Record datetime : Type := mk_datetime { year : Z; month : Z; day : Z }.

Global Instance datetime_eq_dec : EqDecision datetime.
Proof. solve_decision. Defined.

Definition MINYEAR : Z := 1.
Definition MAXYEAR : Z := 9999.

Definition is_leap (y : Z) : bool :=
  (y mod 4 =? 0) && (negb (y mod 100 =? 0) || (y mod 400 =? 0)).

Definition DAYS_IN_MONTH (m : Z) : Z :=
  match m with
  | 1 => 31 | 2 => 28 | 3 => 31 | 4 => 30 | 5 => 31 | 6 => 30
  | 7 => 31 | 8 => 31 | 9 => 30 | 10 => 31 | 11 => 30 | 12 => 31
  | _ => 0
  end.

Definition days_in_month (y m : Z) : Z :=
  if (m =? 2) && is_leap y then 29 else DAYS_IN_MONTH m.

Definition days_before_year (y : Z) : Z :=
  let y' := y - 1 in y' * 365 + y' / 4 - y' / 100 + y' / 400.

Definition DAYS_BEFORE_MONTH (m : Z) : Z :=
  match m with
  | 1 => 0 | 2 => 31 | 3 => 59 | 4 => 90 | 5 => 120 | 6 => 151
  | 7 => 181 | 8 => 212 | 9 => 243 | 10 => 273 | 11 => 304 | 12 => 334
  | _ => 0
  end.

Definition days_before_month (y m : Z) : Z :=
  DAYS_BEFORE_MONTH m + (if (2 <? m) && is_leap y then 1 else 0).

(** The fields of a value the constructor accepts. *)
Definition valid (d : datetime) : bool :=
  (MINYEAR <=? year d) && (year d <=? MAXYEAR) &&
  (1 <=? month d) && (month d <=? 12) &&
  (1 <=? day d) && (day d <=? days_in_month (year d) (month d)).

(** Day number, 0001-01-01 being day 1. *)
Definition toordinal (d : datetime) : Z :=
  days_before_year (year d) + days_before_month (year d) (month d) + day d.

Definition MAXORDINAL : Z := 3652059.

Definition DI400Y : Z := 146097.
Definition DI100Y : Z := 36524.
Definition DI4Y : Z := 1461.

(** The month and the day of day number [n] (from 0) of a year. *)
Definition month_day (n : Z) (leapyear : bool) : Z * Z :=
  let m := Z.shiftr (n + 50) 5 in
  let preceding :=
    DAYS_BEFORE_MONTH m + (if (2 <? m) && leapyear then 1 else 0) in
  if n <? preceding then
    let m := m - 1 in
    let preceding :=
      preceding - (DAYS_IN_MONTH m + (if (m =? 2) && leapyear then 1 else 0)) in
    (m, n - preceding + 1)
  else (m, n - preceding + 1).

Definition fromordinal (n : Z) : datetime :=
  let n := n - 1 in
  let n400 := n / DI400Y in
  let n := n mod DI400Y in
  let y := n400 * 400 + 1 in
  let n100 := n / DI100Y in
  let n := n mod DI100Y in
  let n4 := n / DI4Y in
  let n := n mod DI4Y in
  let n1 := n / 365 in
  let n := n mod 365 in
  let y := y + n100 * 100 + n4 * 4 + n1 in
  if (n1 =? 4) || (n100 =? 4) then mk_datetime (y - 1) 12 31
  else
    let leapyear := (n1 =? 3) && (negb (n4 =? 24) || (n100 =? 3)) in
    let '(m, d) := month_day n leapyear in
    mk_datetime y m d.

(** What [month_day] must satisfy on one input, as a test that runs. *)
Definition month_day_ok (n : Z) (leapyear : bool) : bool :=
  let '(m, d) := month_day n leapyear in
  (1 <=? m) && (m <=? 12) &&
  (DAYS_BEFORE_MONTH m + (if (2 <? m) && leapyear then 1 else 0) + d =? n + 1).

(** [dt + timedelta(days=n)]; the result must be a date of years 1 to
    9999. *)
Definition add_days (dt : datetime) (n : Z) : exn + datetime :=
  let o := toordinal dt + n in
  if (0 <? o) && (o <=? MAXORDINAL) then inr (fromordinal o)
  else inl (OverflowError "date value out of range").

(** [(a - b).days]. *)
Definition sub (a b : datetime) : Z := toordinal a - toordinal b.

(** [timedelta(days=d).total_seconds()]. The magnitudes that dates of years
    1 to 9999 give stay below 2^53, so the floating-point values the
    scripts compute from it are these integers exactly. *)
Definition total_seconds (days : Z) : Z := days * 86400.

(** *** [strptime(data_string, "%Y-%m-%d")]

    [%Y] is four digits, [%m] is [1[0-2]|0[1-9]|[1-9]], [%d] is
    [3[01]|[12]\d|0[1-9]|[1-9]| [1-9]], and nothing may follow the day.
    Digits are the ASCII ones. *)
Definition digit (c : ascii) : option Z :=
  let n := Z.of_N (N_of_ascii c) in
  if (48 <=? n) && (n <=? 57) then Some (n - 48) else None.

Definition nonzero_digit (c : ascii) : option Z :=
  match digit c with
  | Some 0 => None
  | o => o
  end.

Definition parse_Y (s : string) : option (Z * string) :=
  match s with
  | String a (String b (String c (String d rest))) =>
      match digit a, digit b, digit c, digit d with
      | Some a, Some b, Some c, Some d =>
          Some (1000 * a + 100 * b + 10 * c + d, rest)
      | _, _, _, _ => None
      end
  | _ => None
  end.

Definition expect_dash (s : string) : option string :=
  match s with
  | String "-" rest => Some rest
  | _ => None
  end.

(** The month and the dash that follows it: the two-character forms are
    tried first, then the single digit. *)
Definition parse_m_dash (s : string) : option (Z * string) :=
  let two :=
    match s with
    | String a (String b rest) =>
        match digit a, digit b with
        | Some 1, Some b => if b <=? 2 then pair (10 + b) <$> expect_dash rest else None
        | Some 0, Some b => if 1 <=? b then pair b <$> expect_dash rest else None
        | _, _ => None
        end
    | _ => None
    end in
  match two with
  | Some r => Some r
  | None =>
      match s with
      | String a rest =>
          match nonzero_digit a with
          | Some a => pair a <$> expect_dash rest
          | None => None
          end
      | _ => None
      end
  end.

(** The day, which must end the text. *)
Definition parse_d_end (s : string) : option Z :=
  match s with
  | String a (String b EmptyString) =>
      if Ascii.eqb a " " then nonzero_digit b
      else
        match digit a, digit b with
        | Some 3, Some b => if b <=? 1 then Some (30 + b) else None
        | Some 1, Some b => Some (10 + b)
        | Some 2, Some b => Some (20 + b)
        | Some 0, Some b => if 1 <=? b then Some b else None
        | _, _ => None
        end
  | String a EmptyString => nonzero_digit a
  | _ => None
  end.

Definition strptime (data_string : string) : exn + datetime :=
  let parsed :=
    '(y, s) ← parse_Y data_string;
    s ← expect_dash s;
    '(m, s) ← parse_m_dash s;
    d ← parse_d_end s;
    Some (mk_datetime y m d) in
  match parsed with
  | Some dt => if valid dt then inr dt else inl (TimeDataError data_string)
  | None => inl (TimeDataError data_string)
  end.

(** Minutes from the start of day [a] to the start of the day after
    [b]. *)
Definition minutes_through (a b : datetime) : Z :=
  (toordinal b + 1 - toordinal a) * 24 * 60.

End datetime.

(** ** Text helpers *)

(** [s.split(sep)] for a one-character separator: never empty. *)
Fixpoint str_split (sep : ascii) (s : string) : list string :=
  match s with
  | EmptyString => [EmptyString]
  | String c s' =>
      if Ascii.eqb c sep then EmptyString :: str_split sep s'
      else match str_split sep s' with
           | [] => [String c EmptyString]
           | piece :: pieces => String c piece :: pieces
           end
  end.

Definition backslash : ascii := Ascii.ascii_of_nat 92.

(** ** Loops *)

(** [range(start, stop, step)] for a positive [step]; [stop] iterations are
    enough for it. *)
Fixpoint range_go (fuel start stop step : nat) : list nat :=
  match fuel with
  | O => []
  | S fuel' =>
      if start <? stop then start :: range_go fuel' (start + step) stop step
      else []
  end.

Definition range (start stop step : nat) : list nat :=
  range_go stop start stop step.

Fixpoint enumerate_from {A} (i : nat) (l : list A) : list (nat * A) :=
  match l with
  | [] => []
  | x :: l' => (i, x) :: enumerate_from (S i) l'
  end.

Definition enumerate {A} (l : list A) : list (nat * A) := enumerate_from 0 l.

(** [df.iloc[a:b]]: a slice stops at the end of the table. *)
Definition iloc {A} (df : list A) (a b : nat) : list A := take (b - a) (drop a df).

(** [files.sort(key=...)]: the sort is stable. *)
Fixpoint insert_by_key (x : string * Z) (l : list (string * Z)) : list (string * Z) :=
  match l with
  | [] => [x]
  | y :: l' => if (x.2 <=? y.2)%Z then x :: y :: l' else y :: insert_by_key x l'
  end.

Definition sort_by_key (l : list (string * Z)) : list (string * Z) :=
  foldr insert_by_key [] l.

(** * The scripts *)

Section scripts.

(** Coordinates are floating-point cells: all the scripts do with them is
    pass them on, compare them for equality and ask whether one is
    missing. [extra] is the rest of an input row, [record] a row of the
    table the CAMS client returns. *)
Context {coord : Type} `{EqDecision coord} (isna : coord → bool).
Context {extra record : Type}.

(** [os.path.join], a collaborator. *)
Variable os_path_join : string → string → string.

(** A row that has the columns [Latitude] and [Longitude], and others. *)
Record row (D : Type) : Type :=
  Row { Latitude : coord; Longitude : coord; columns : D }.

Global Arguments Row {D} _ _ _.
Global Arguments Latitude {D} _.
Global Arguments Longitude {D} _.
Global Arguments columns {D} _.

(** ** [set_up.py] *)

Inductive setup_event (A : Type) : Type :=
| ChunkToCsv (chunk_file : string) (chunk : list A)
| SetupPrint (text : string).

Global Arguments ChunkToCsv {A} _ _.
Global Arguments SetupPrint {A} _.

Definition chunk_size : nat := 100.

Definition chunk_file_name (i : nat) : string :=
  "unprocessed_data_" +:+ pretty (i + 1) +:+ ".csv".

(** The body of the [for] loop of [chunk_data], over the pairs that
    [enumerate(range(...))] yields; the result is the last value bound to
    [i], if any. *)
Fixpoint chunk_loop {A} (solar_farms_data : list A) (output_folder : string)
    (pairs : list (nat * nat)) (i : option nat)
    : M (setup_event A) (option nat) :=
  match pairs with
  | [] => mret i
  | (i', start) :: pairs' =>
      let chunk := iloc solar_farms_data start (start + chunk_size) in
      let chunk_file := os_path_join output_folder (chunk_file_name i') in
      emit (ChunkToCsv chunk_file chunk);;
      chunk_loop solar_farms_data output_folder pairs' (Some i')
  end.

Definition chunk_data {A} (read_csv : string → exn + list A)
    (file_path output_folder : string) : M (setup_event A) nat :=
  solar_farms_data ← lift (read_csv file_path);
  i ← chunk_loop solar_farms_data output_folder
        (enumerate (range 0 (length solar_farms_data) chunk_size)) None;
  match i with
  | None => raise (UnboundLocalError "i")
  | Some i =>
      emit (SetupPrint ("Successfully created " +:+ pretty (i + 1) +:+
                        " chunked files in '" +:+ output_folder +:+ "'."));;
      mret (i + 1)
  end.

(** ** [process_cams_data.py] *)

(** The arguments of one call of [pvlib.iotools.get_cams], in its order. *)
Record request : Type := Request {
  rq_latitude : coord;
  rq_longitude : coord;
  rq_start : string;
  rq_end : string;
  rq_email : string;
  rq_identifier : string;
  rq_altitude : option coord;
  rq_time_step : string;
  rq_time_ref : string;
  rq_verbose : bool;
  rq_integrated : bool;
  rq_label : option string;
  rq_map_variables : bool;
  rq_server : option string;
  rq_timeout : option string
}.

(** What a [print] call was given. *)
Inductive line : Type :=
| Text (text : string)
| ErrorText (prefix : string) (e : exn)
| Tuple (items : list string)
| Args (rq : request)
| Head (rows : list (row extra)).

Inductive event : Type :=
| Print (l : line)
| GetCams (rq : request)
| ToCsv (output_file : string) (output_data : list (row record))
| Makedirs (path : string)
| Rename (src dst : string)
| PrintExc (e : exn).

(** An entry of a folder, as [os.listdir], [os.path.isfile] and
    [os.path.getctime] describe it. *)
Record dirent : Type := Dirent { d_name : string; d_isfile : bool; d_ctime : Z }.

(** What a run reads from outside: the working directory, the parsed
    [config.json], folder listings, CSV files, the answers of the CAMS
    client (by call number), today's date as [strftime("%Y-%m-%d")] gives
    it, and which paths exist. The configuration written by [set_up.py]
    holds text, but for the time-out, which is only passed on. *)
Record world : Type := World {
  getcwd : string;
  json_load : string → exn + gmap string string;
  listdir : string → exn + list dirent;
  read_csv : string → exn + list (row extra);
  get_cams : nat → request → exn + list record;
  now : string;
  path_exists : string → bool
}.

Definition module_globals : list string :=
  [ "pvlib"; "pd"; "datetime"; "json"; "os";
    "load_config"; "get_file_to_process"; "fetch_cams_data";
    "validate_output"; "main" ].

(** Evaluating a name in a function of the module. *)
Definition load_name (locals : list string) (name : string) : M event unit :=
  match names.resolve locals module_globals name with
  | names.Unbound => raise (NameError name)
  | _ => mret tt
  end.

Definition load_config (w : world) (file_path : string)
    : M event (gmap string string) :=
  try_except
    (lift (json_load w file_path))
    (λ e, emit (Print (ErrorText "load_config: Error occured: " e));;
          raise e).

Definition get_file_to_process (w : world) (data_folder : string)
    : M event (option string) :=
  try_except
    (entries ← lift (listdir w data_folder);
     let files :=
       (λ f, (os_path_join data_folder (d_name f), d_ctime f)) <$>
       filter (λ f, d_isfile f = true) entries in
     let files := fst <$> sort_by_key files in
     match files with
     | file :: _ => mret (Some file)
     | [] =>
         emit (Print (Text "There is no datafile to process."));;
         mret None
     end)
    (λ e, emit (Print (ErrorText "get_file_to_process: Error occured: " e));;
          raise e).

Definition fetch_cams_data_locals : list string :=
  [ "solar_data"; "start_date"; "end_date"; "email"; "identifier";
    "altitude"; "time_step"; "time_ref"; "verbose"; "integrated"; "label";
    "map_variables"; "server"; "timeout";
    "cams_df"; "idx"; "row"; "data"; "metadata"; "e" ].

(** The parameters of [fetch_cams_data] that every call shares. *)
Record fetch_params : Type := FetchParams {
  start_date : string;
  end_date : string;
  email : string;
  identifier : string;
  altitude : option coord;
  time_step : string;
  time_ref : string;
  verbose : bool;
  integrated : bool;
  label : option string;
  map_variables : bool;
  server : option string;
  timeout : option string
}.

Definition request_for (p : fetch_params) (r : row extra) : request :=
  Request (Latitude r) (Longitude r) (start_date p) (end_date p) (email p)
    (identifier p) (altitude p) (time_step p) (time_ref p) (verbose p)
    (integrated p) (label p) (map_variables p) (server p) (timeout p).

(** The [except] clause of the loop: its message names [idx], [latitude],
    [longitude] and [e], in this order, then the exception is raised
    again. *)
Definition fetch_except (idx : nat) (e : exn) : M event (list (row record)) :=
  load_name fetch_cams_data_locals "idx";;
  load_name fetch_cams_data_locals "latitude";;
  load_name fetch_cams_data_locals "longitude";;
  load_name fetch_cams_data_locals "e";;
  emit (Print (ErrorText
    ("fetch_cams_data: Error processing record " +:+ pretty idx +:+ ": ") e));;
  raise e.

(** The [for] loop over [solar_data.iterrows()]. *)
Fixpoint fetch_loop (w : world) (p : fetch_params)
    (rows : list (nat * row extra)) (cams_df : list (row record))
    : M event (list (row record)) :=
  match rows with
  | [] => mret cams_df
  | (idx, r) :: rows' =>
      cams_df ← try_except
        (let rq := request_for p r in
         emit (Print (Args rq));;
         emit (GetCams rq);;
         data ← lift (get_cams w idx rq);
         let data := (λ d, Row (Latitude r) (Longitude r) d) <$> data in
         mret (cams_df ++ data))
        (fetch_except idx);
      fetch_loop w p rows' cams_df
  end.

Definition fetch_cams_data (w : world) (solar_data : list (row extra))
    (p : fetch_params) : M event (list (row record)) :=
  fetch_loop w p (enumerate solar_data) [].

(** The default values of the keyword parameters of [fetch_cams_data]. *)
Definition fetch_defaults (start_date end_date email : string) : fetch_params :=
  FetchParams start_date end_date email "mcclear" None "1h" "UT" false false
    None true None None.

Local Open Scope Z_scope.

Definition time_step_ref : gmap string (option Z) :=
  {[ "1min" := Some 1; "15min" := Some 15; "1h" := Some 60; "1M" := None ]}.

(** [column.nunique()]: missing cells are not counted. *)
Definition nunique (column : list coord) : nat :=
  length (remove_dups (filter (λ x, isna x = false) column)).

(** Lines 144 to 165 of [validate_output]: the value of [exp_rows]. The
    minutes are whole numbers far below 2^53, so the floating-point
    division and floor division of the script are the integer ones. *)
Definition expected_rows (output_data : list (row record))
    (start_date end_date time_step : string) : M event Z :=
  let total_hours := 24 in
  let unique_locations := Z.of_nat (nunique (Latitude <$> output_data)) in
  start_date ← lift (datetime.strptime start_date);
  end_date ← lift (datetime.strptime end_date);
  if String.eqb time_step "1M" then
    let exp_rows :=
      (datetime.year end_date - datetime.year start_date) * 12 +
      (datetime.month end_date - datetime.month start_date) + 1 in
    mret (exp_rows * unique_locations)
  else
    end_next ← lift (datetime.add_days end_date 1);
    let time_delta :=
      datetime.total_seconds (datetime.sub end_next start_date) / 60 in
    divisor ← match time_step_ref !! time_step with
              | Some d => mret d
              | None => raise (KeyError time_step)
              end;
    match divisor with
    | Some step_minutes => mret (time_delta / step_minutes * unique_locations)
    | None =>
        raise (TypeError "unsupported operand type(s) for //: 'float' and 'NoneType'")
    end.

Definition output_file_name (w : world) (output_folder : string) : string :=
  output_folder +:+ String backslash "processed_cams_data_" +:+ now w +:+ ".csv".

Definition validate_output (w : world) (output_data : list (row record))
    (start_date end_date time_step output_folder : string) : M event bool :=
  try_except
    (exp_rows ← expected_rows output_data start_date end_date time_step;
     let found := Z.of_nat (length output_data) in
     if bool_decide (found = exp_rows) then
       let output_file := output_file_name w output_folder in
       emit (ToCsv output_file output_data);;
       emit (Print (Text ("expected row count: " +:+ pretty exp_rows +:+
                          " found rows: " +:+ pretty found)));;
       emit (Print (Text ("Output validation successful. Output saved to: " +:+
                          output_file)));;
       mret true
     else
       raise (ValueError ("Expected row count: " +:+ pretty exp_rows +:+
                          ", but found " +:+ pretty found +:+ " rows.")))
    (λ e, raise e).

Local Close Scope Z_scope.

Definition main_locals : list string :=
  [ "config"; "sky_type"; "start_date"; "end_date"; "time_step";
    "time_reference"; "server_name"; "timeout"; "email";
    "unprocessed_folder"; "processed_folder"; "results_folder";
    "datafile"; "file_name"; "processed_file"; "solar_data";
    "cams_details"; "status"; "ex" ].

(** [config[key]]. *)
Definition getitem (config : gmap string string) (key : string) : M event string :=
  match config !! key with
  | Some v => mret v
  | None => raise (KeyError key)
  end.

(** [datafile.split(sep)], where [datafile] may be [None]. *)
Definition split_path (datafile : option string) : M event (list string) :=
  match datafile with
  | Some s => mret (str_split backslash s)
  | None => raise (AttributeError "'NoneType' object has no attribute 'split'")
  end.

(** Truth value of a text or [None]. *)
Definition truthy (datafile : option string) : bool :=
  match datafile with
  | Some s => negb (String.eqb s "")
  | None => false
  end.

Definition pd_read_csv (w : world) (datafile : option string)
    : M event (list (row extra)) :=
  match datafile with
  | Some s => lift (read_csv w s)
  | None =>
      raise (ValueError "Invalid file path or buffer object type: <class 'NoneType'>")
  end.

Definition os_rename (datafile : option string) (processed_file : string)
    : M event unit :=
  match datafile with
  | Some s => emit (Rename s processed_file)
  | None =>
      raise (TypeError "rename: src should be string, bytes or os.PathLike, not NoneType")
  end.

(** The statements inside the [try] of [main]. *)
Definition main_try (w : world) : M event unit :=
  emit (Print (Text (getcwd w)));;
  config ← load_config w "config.json";
  sky_type ← getitem config "sky_type";
  start_date ← getitem config "start_date";
  end_date ← getitem config "end_date";
  time_step ← getitem config "time_step";
  time_reference ← getitem config "time_reference";
  server_name ← getitem config "server_name";
  timeout ← getitem config "timeout";
  email ← getitem config "email";
  unprocessed_folder ← getitem config "unprocessed_folder";
  processed_folder ← getitem config "processed_folder";
  results_folder ← getitem config "results_folder";
  emit (Print (Tuple [sky_type; start_date; end_date; time_step;
                      time_reference; unprocessed_folder; processed_folder;
                      results_folder; server_name; timeout; email]));;
  datafile ← get_file_to_process w unprocessed_folder;
  file_name ← split_path datafile;
  let processed_file :=
    processed_folder +:+ String backslash (default "" (last file_name)) in
  emit (Print (Text processed_file));;
  (if truthy datafile
   then emit (Print (Text ("Processing " +:+ default "" datafile)))
   else emit (Print (Text "There is no datafile to process.")));;
  solar_data ← pd_read_csv w datafile;
  emit (Print (Head (take 5 solar_data)));;
  emit (Print (Text processed_folder));;
  cams_details ← fetch_cams_data w solar_data
    (FetchParams start_date end_date email sky_type None time_step
       time_reference false false None true (Some server_name) (Some timeout));
  (if bool_decide (length cams_details = 0)
   then raise (TypeError "exceptions must derive from BaseException")
   else mret tt);;
  status ← validate_output w cams_details start_date end_date time_step
             results_folder;
  if (status : bool) then
    (if path_exists w processed_folder then mret tt
     else emit (Makedirs processed_folder));;
    emit (Print (Text processed_file));;
    os_rename datafile processed_file
  else mret tt.

(** The [except Exception as ex] clause of [main]. *)
Definition main_except (ex : exn) : M event unit :=
  emit (Print (ErrorText "Main: An error occured " ex));;
  load_name main_locals "traceback";;
  emit (PrintExc ex).

Definition main (w : world) : M event unit :=
  try_except (main_try w) main_except.

End scripts.

(** ** Notions the properties are stated with *)

(** The steps that have a length in minutes. *)
Definition sub_daily_steps : list (string * Z) :=
  [ ("1min", 1%Z); ("15min", 15%Z); ("1h", 60%Z) ].



(** What a fetch prints and calls for the rows it gets to. *)
Definition call_events {coord extra record} (p : fetch_params (coord:=coord))
    (rows : list (row (coord:=coord) extra))
    : list (event (coord:=coord) (extra:=extra) (record:=record)) :=
  rows ≫= λ r, [Print (Args (request_for p r)); GetCams (request_for p r)].

(** Events of fetching, validating (a saved result) and archiving. *)
Definition fetches_saves_or_archives {coord extra record}
    (ev : event (coord:=coord) (extra:=extra) (record:=record)) : bool :=
  match ev with
  | GetCams _ | ToCsv _ _ | Makedirs _ | Rename _ _ => true
  | Print _ | PrintExc _ => false
  end.

Definition saves_or_archives {coord extra record}
    (ev : event (coord:=coord) (extra:=extra) (record:=record)) : bool :=
  match ev with
  | ToCsv _ _ | Makedirs _ | Rename _ _ => true
  | GetCams _ | Print _ | PrintExc _ => false
  end.

(** The keys [main] reads from the configuration. *)
Definition required_keys : list string :=
  [ "sky_type"; "start_date"; "end_date"; "time_step"; "time_reference";
    "server_name"; "timeout"; "email"; "unprocessed_folder";
    "processed_folder"; "results_folder" ].

(** ** A concrete installation, for the examples

    Coordinates in whole degrees, input rows with no other column, and
    hourly records numbered by the hour. *)
Module example.

Definition isna (x : Z) : bool := false.

Definition os_path_join (a b : string) : string := a +:+ String backslash b.

Definition config : gmap string string :=
  list_to_map
    [ ("sky_type", "mcclear"); ("start_date", "2023-01-01");
      ("end_date", "2023-01-01"); ("time_step", "1h");
      ("time_reference", "UT"); ("server_name", "api.soda-solardata.com");
      ("timeout", "30"); ("email", "user@example.org");
      ("unprocessed_folder", "unprocessed");
      ("processed_folder", "processed"); ("results_folder", "results") ].

Definition locations : list (row (coord:=Z) unit) :=
  [ Row 52%Z 4%Z tt; Row 48%Z 2%Z tt ].

(** The installation: the files of [unprocessed], and what the CAMS
    client answers to its calls. *)
Definition installation (files : list dirent)
    (answer : nat → exn + list nat) : world (coord:=Z) (extra:=unit) (record:=nat) :=
  World "C:" (λ _, inr config) (λ _, inr files) (λ _, inr locations)
    (λ i _, answer i) "2024-05-06" (λ _, true).

Definition pending : list dirent :=
  [ Dirent "unprocessed_data_2.csv" true 20%Z;
    Dirent "unprocessed_data_1.csv" true 10%Z ].

Definition a_day : list nat := seq 0 24.

Definition params : fetch_params (coord:=Z) :=
  FetchParams "2023-01-01" "2023-01-01" "user@example.org" "mcclear" None
    "1h" "UT" false false None true (Some "api.soda-solardata.com") (Some "30").

(** Two locations, a day of hourly records each. *)
Definition two_days : list (row (coord:=Z) nat) :=
  ((λ d, Row 52%Z 4%Z d) <$> a_day) ++ ((λ d, Row 48%Z 2%Z d) <$> a_day).


End example.


(** ** [set_up.py], the whole script *)

Section set_up.

Variable os_path_join : string → string → string.

(** What a [print] call of [set_up.py] was given. *)
Inductive setup_line : Type :=
| SetupText (text : string)
| SetupError (prefix : string) (e : exn)
| SetupParams (params : gmap string string).

(** The steps of the script: those of [chunk_data], prints, and calls of
    [os.makedirs(path, exist_ok=True)] and of [json.dump] into a file that
    was opened for writing. *)
Inductive setup_step (A : Type) : Type :=
| Chunking (ev : setup_event A)
| SetupSay (l : setup_line)
| SetupMakedirs (path : string)
| JsonDump (file : string) (config_params : gmap string string).

Global Arguments Chunking {A} _.
Global Arguments SetupSay {A} _.
Global Arguments SetupMakedirs {A} _.
Global Arguments JsonDump {A} _ _.

(** What the script reads from outside: the working directory, the
    message of the OSError of [os.makedirs] for a path it cannot create,
    the exception of [open('config.json', 'w')] if it has one, and the
    input tables. *)
Record setup_world (A : Type) : Type := SetupWorld {
  setup_getcwd : string;
  makedirs_error : string → option string;
  open_error : option exn;
  setup_read_csv : string → exn + list A
}.

Global Arguments SetupWorld {A} _ _ _ _.
Global Arguments setup_getcwd {A} _.
Global Arguments makedirs_error {A} _ _.
Global Arguments open_error {A} _.
Global Arguments setup_read_csv {A} _ _.

(** The exceptions of the [os] functions are OSErrors. *)
Definition OSError (message : string) : exn := LibraryError message.

Definition os_makedirs {A} (w : setup_world A) (path : string)
    : M (setup_step A) unit :=
  match makedirs_error w path with
  | Some message => raise (OSError message)
  | None => emit (SetupMakedirs path)
  end.

(** [except OSError as e]: the clause for the exceptions of [os], any
    other goes on. *)
Definition except_OSError {E A} (body : M E A) (handler : exn → M E A) : M E A :=
  try_except body
    (λ e, match e with
          | LibraryError _ => handler e
          | _ => raise e
          end).

(** The function returns the three paths, or nothing ([None]) when its
    [except] clause has run. *)
Definition set_up_folders {A} (w : setup_world A)
    : M (setup_step A) (option (string * string * string)) :=
  except_OSError
    (let cams_folder := setup_getcwd w in
     emit (SetupSay (SetupText cams_folder));;
     emit (SetupSay (SetupText ("Home dir is: " +:+ cams_folder)));;
     let unprocessed_folder := os_path_join cams_folder "unprocessed" in
     let processed_folder := os_path_join cams_folder "processed" in
     let results_folder := os_path_join cams_folder "results" in
     os_makedirs w unprocessed_folder;;
     os_makedirs w processed_folder;;
     os_makedirs w results_folder;;
     emit (SetupSay (SetupText "Folder structure created successfully."));;
     mret (Some (unprocessed_folder, processed_folder, results_folder)))
    (λ e,
       emit (SetupSay (SetupError
         "Following error occured while creating directories: " e));;
       mret None).

Definition create_config_file {A} (w : setup_world A)
    (config_params : gmap string string) : M (setup_step A) unit :=
  try_except
    (match open_error w with
     | Some e => raise e
     | None => emit (JsonDump "config.json" config_params)
     end;;
     emit (SetupSay (SetupText
       ("Config file created in the " +:+ setup_getcwd w +:+ "."))))
    (λ e, emit (SetupSay (SetupError "An error occured " e))).

(** The command line, as [parse_args] returns it: the seven options are
    required, and [vars(args)] has their seven keys. The lists are the
    [choices] of the options that have them. *)
Record arguments : Type := Arguments_ {
  arg_file_path : string;
  arg_sky_type : string;
  arg_start_date : string;
  arg_end_date : string;
  arg_time_step : string;
  arg_time_reference : string;
  arg_email : string
}.

Definition sky_type_choices : list string := [ "mcclear"; "cams_radiation" ].
Definition time_step_choices : list string :=
  [ "1min"; "15min"; "1h"; "1d"; "1M" ].
Definition time_reference_choices : list string := [ "UT"; "TST" ].

Definition vars (args : arguments) : gmap string string :=
  {[ "file_path" := arg_file_path args;
     "sky_type" := arg_sky_type args;
     "start_date" := arg_start_date args;
     "end_date" := arg_end_date args;
     "time_step" := arg_time_step args;
     "time_reference" := arg_time_reference args;
     "email" := arg_email args ]}.

(** A run of [chunk_data] as steps of the script. *)
Definition chunking {A B} (m : M (setup_event A) B) : M (setup_step A) B :=
  (Chunking <$> m.1, m.2).

(** [a, b, c = value]: a value that is [None] cannot be unpacked. *)
Definition unpack {E} (value : option (string * string * string))
    : M E (string * string * string) :=
  match value with
  | Some folders => mret folders
  | None => raise (TypeError "cannot unpack non-iterable NoneType object")
  end.

(** [params[key]]. *)
Definition params_getitem {E} (params : gmap string string) (key : string)
    : M E string :=
  match params !! key with
  | Some v => mret v
  | None => raise (KeyError key)
  end.

(** [main] of [set_up.py], from the parsed command line on. The time-out,
    the number 30, is kept as its text, as the other script takes it. *)
Definition setup_main {A} (w : setup_world A) (args : arguments)
    : M (setup_step A) unit :=
  try_except
    (let params := vars args in
     emit (SetupSay (SetupParams params));;
     emit (SetupSay (SetupText (setup_getcwd w)));;
     folders ← set_up_folders w;
     '(unprocessed_folder, processed_folder, results_folder) ← unpack folders;
     let params := <["unprocessed_folder" := unprocessed_folder]> params in
     let params := <["processed_folder" := processed_folder]> params in
     let params := <["results_folder" := results_folder]> params in
     let params := <["server_name" := "api.soda-solardata.com"]> params in
     let params := <["timeout" := "30"]> params in
     create_config_file w params;;
     file_path ← params_getitem params "file_path";
     chunking (chunk_data os_path_join (setup_read_csv w) file_path
                 unprocessed_folder);;
     mret tt)
    (λ e, emit (SetupSay (SetupError "An error occured: " e))).

End set_up.

(** ** Notions the further properties are stated with *)

(** The table a fetch builds from the answers of the client: the records
    answered for each location, in the order of the locations, each with the
    coordinates of its location in front. *)
Definition fetched_table {coord extra record}
    (solar_data : list (row (coord:=coord) extra))
    (answer : nat → list record) : list (row (coord:=coord) record) :=
  mjoin (imap (λ i r, (λ d, Row (Latitude r) (Longitude r) d) <$> answer i)
           solar_data).

(** Events that may come between the saved result and the renaming of the
    input file. *)
Definition prints_or_makes_folder {coord extra record}
    (ev : event (coord:=coord) (extra:=extra) (record:=record)) : bool :=
  match ev with
  | Print _ | Makedirs _ => true
  | GetCams _ | ToCsv _ _ | Rename _ _ | PrintExc _ => false
  end.

(** ** The orchestrator on a file system that can refuse

    [DataFrame.to_csv], [os.makedirs] and [os.rename] raise an OSError when
    the file system refuses them. The runs of this module read the refusals
    from [file_errors]; an event [ToCsv], [Makedirs] or [Rename] of such a
    run is an operation that was carried out, and a refused operation
    leaves no event: a [to_csv] that is refused fails when it opens its
    file, and has written nothing. The other statements are those of
    [validate_output] and [main] above. *)
Module io.

Record file_errors := FileErrors {
  to_csv_fails : string → option exn;            (* to_csv(path) *)
  makedirs_fails : string → option exn;          (* os.makedirs(path) *)
  rename_fails : string → string → option exn    (* os.rename(src, dst) *)
}.

Section scripts.

Context {coord : Type} `{EqDecision coord} (isna : coord → bool).
Context {extra record : Type}.
Variable os_path_join : string → string → string.
Variable fs : file_errors.

Local Abbreviation world := (world (coord:=coord) (extra:=extra) (record:=record)).
Local Abbreviation event := (event (coord:=coord) (extra:=extra) (record:=record)).

Local Open Scope Z_scope.

Definition to_csv (output_data : list (row (coord:=coord) record))
    (output_file : string) : M event unit :=
  match to_csv_fails fs output_file with
  | Some e => raise e
  | None => emit (ToCsv output_file output_data)
  end.

Definition validate_output (w : world)
    (output_data : list (row (coord:=coord) record))
    (start_date end_date time_step output_folder : string) : M event bool :=
  try_except
    (exp_rows ← expected_rows (extra:=extra) isna output_data start_date
                  end_date time_step;
     let found := Z.of_nat (length output_data) in
     if bool_decide (found = exp_rows) then
       let output_file := output_file_name w output_folder in
       to_csv output_data output_file;;
       emit (Print (Text ("expected row count: " +:+ pretty exp_rows +:+
                          " found rows: " +:+ pretty found)));;
       emit (Print (Text ("Output validation successful. Output saved to: " +:+
                          output_file)));;
       mret true
     else
       raise (ValueError ("Expected row count: " +:+ pretty exp_rows +:+
                          ", but found " +:+ pretty found +:+ " rows.")))
    (λ e, raise e).

Local Close Scope Z_scope.

Definition os_makedirs (path : string) : M event unit :=
  match makedirs_fails fs path with
  | Some e => raise e
  | None => emit (Makedirs path)
  end.

Definition os_rename (datafile : option string) (processed_file : string)
    : M event unit :=
  match datafile with
  | Some s =>
      match rename_fails fs s processed_file with
      | Some e => raise e
      | None => emit (Rename s processed_file)
      end
  | None =>
      raise (TypeError "rename: src should be string, bytes or os.PathLike, not NoneType")
  end.

(** The statements inside the [try] of [main]. *)
Definition main_try (w : world) : M event unit :=
  emit (Print (Text (getcwd w)));;
  config ← load_config w "config.json";
  sky_type ← getitem config "sky_type";
  start_date ← getitem config "start_date";
  end_date ← getitem config "end_date";
  time_step ← getitem config "time_step";
  time_reference ← getitem config "time_reference";
  server_name ← getitem config "server_name";
  timeout ← getitem config "timeout";
  email ← getitem config "email";
  unprocessed_folder ← getitem config "unprocessed_folder";
  processed_folder ← getitem config "processed_folder";
  results_folder ← getitem config "results_folder";
  emit (Print (Tuple [sky_type; start_date; end_date; time_step;
                      time_reference; unprocessed_folder; processed_folder;
                      results_folder; server_name; timeout; email]));;
  datafile ← get_file_to_process os_path_join w unprocessed_folder;
  file_name ← split_path datafile;
  let processed_file :=
    processed_folder +:+ String backslash (default "" (last file_name)) in
  emit (Print (Text processed_file));;
  (if truthy datafile
   then emit (Print (Text ("Processing " +:+ default "" datafile)))
   else emit (Print (Text "There is no datafile to process.")));;
  solar_data ← pd_read_csv w datafile;
  emit (Print (Head (take 5 solar_data)));;
  emit (Print (Text processed_folder));;
  cams_details ← fetch_cams_data w solar_data
    (FetchParams start_date end_date email sky_type None time_step
       time_reference false false None true (Some server_name) (Some timeout));
  (if bool_decide (length cams_details = 0)
   then raise (TypeError "exceptions must derive from BaseException")
   else mret tt);;
  status ← validate_output w cams_details start_date end_date time_step
             results_folder;
  if (status : bool) then
    (if path_exists w processed_folder then mret tt
     else os_makedirs processed_folder);;
    emit (Print (Text processed_file));;
    os_rename datafile processed_file
  else mret tt.

Definition main (w : world) : M event unit :=
  try_except (main_try w) main_except.

End scripts.

(** A file system that refuses nothing. *)
Definition no_refusal : file_errors :=
  FileErrors (λ _, None) (λ _, None) (λ _ _, None).

End io.

(** A run that ends with an exception, having saved and archived nothing. *)
Definition nothing_saved {coord extra record}
    (m : M (event (coord:=coord) (extra:=extra) (record:=record)) unit) : Prop :=
  ∃ t e, m = (t, inl e) ∧ Forall (λ ev, saves_or_archives ev = false) t.

(** A run that ends with an exception after it saved one result, having
    renamed no file. *)
Definition saved_not_archived {coord extra record}
    (m : M (event (coord:=coord) (extra:=extra) (record:=record)) unit) : Prop :=
  ∃ t output_file output_data between e,
    m = (t ++ ToCsv output_file output_data :: between, inl e) ∧
    Forall (λ ev, saves_or_archives ev = false) t ∧
    Forall (λ ev, prints_or_makes_folder ev = true) between.

(** A run that completes, having saved one result and then renamed one
    file, as its last step. *)
Definition saved_and_archived {coord extra record}
    (m : M (event (coord:=coord) (extra:=extra) (record:=record)) unit) : Prop :=
  ∃ t output_file output_data between src dst,
    m = (t ++ ToCsv output_file output_data :: between ++ [Rename src dst],
         inr tt) ∧
    Forall (λ ev, saves_or_archives ev = false) t ∧
    Forall (λ ev, prints_or_makes_folder ev = true) between.

(** A file system that refuses to create some folder or to rename some
    file. *)
Definition refuses_archiving (fs : io.file_errors) : Prop :=
  (∃ path e, io.makedirs_fails fs path = Some e) ∨
  (∃ src dst e, io.rename_fails fs src dst = Some e).

(** The path of the file a step of [chunk_data] writes. *)
Definition chunk_path {A} (ev : setup_event A) : option string :=
  match ev with
  | ChunkToCsv chunk_file _ => Some chunk_file
  | SetupPrint _ => None
  end.

(** Steps of [set_up.py] that write a chunk file, and steps that write any
    file. *)
Definition writes_a_chunk {A} (ev : setup_step A) : bool :=
  match ev with
  | Chunking (ChunkToCsv _ _) => true
  | _ => false
  end.

Definition writes_a_file {A} (ev : setup_step A) : bool :=
  match ev with
  | JsonDump _ _ => true
  | _ => writes_a_chunk ev
  end.

(** ** More of the example installation *)

Module example_more.

(** Two locations on one latitude, as rows of an input file. *)
Definition twins : list (row (coord:=Z) unit) :=
  [ Row 52%Z 4%Z tt; Row 52%Z 13%Z tt ].

(** An installation whose input file is [solar_data]. *)
Definition installation_of (solar_data : list (row (coord:=Z) unit))
    (answer : nat → exn + list nat)
    : world (coord:=Z) (extra:=unit) (record:=nat) :=
  World "C:" (λ _, inr example.config) (λ _, inr example.pending)
    (λ _, inr solar_data) (λ i _, answer i) "2024-05-06" (λ _, true).

(** An installation whose configuration has lost its e-mail. *)
Definition without_email : world (coord:=Z) (extra:=unit) (record:=nat) :=
  World "C:" (λ _, inr (delete "email" example.config))
    (λ _, inr example.pending) (λ _, inr example.locations)
    (λ _, λ _, inr example.a_day) "2024-05-06" (λ _, true).

Definition args : arguments :=
  Arguments_ "solar_farms.csv" "mcclear" "2023-01-01" "2023-01-01" "1h" "UT"
    "user@example.org".

(** A first run of [set_up.py] on a table of 250 numbered rows; one in a
    place where the folder processed cannot be created; one on a table of
    no rows. *)
Definition first_run : setup_world nat :=
  SetupWorld "C:" (λ _, None) None (λ _, inr (seq 0 250)).

Definition read_only : setup_world nat :=
  SetupWorld "C:"
    (λ path, if String.eqb path (example.os_path_join "C:" "processed")
             then Some "[WinError 5] Access is denied" else None)
    None (λ _, inr (seq 0 250)).

Definition no_rows : setup_world nat :=
  SetupWorld "C:" (λ _, None) None (λ _, inr []).

(** A file system on which no file can be renamed. *)
Definition no_rename : io.file_errors :=
  io.FileErrors (λ _, None) (λ _, None)
    (λ _ _, Some (LibraryError "[WinError 5] Access is denied")).

End example_more.
(** * Properties *)

(** ** The calendar *)

Section calendar.

Import datetime.
Local Open Scope Z_scope.

Lemma month_day_table :
  forallb (λ k, month_day_ok (Z.of_nat k) true && month_day_ok (Z.of_nat k) false)
    (seq 0 365) = true.
Proof. vm_compute. reflexivity. Qed.

Lemma month_day_spec n leapyear m d :
  0 ≤ n < 365 → month_day n leapyear = (m, d) →
  1 ≤ m ≤ 12 ∧
  DAYS_BEFORE_MONTH m + (if (2 <? m) && leapyear then 1 else 0) + d = n + 1.
Proof.
  intros Hn Hmd.
  pose proof month_day_table as Ht.
  rewrite forallb_forall in Ht.
  specialize (Ht (Z.to_nat n)).
  rewrite Z2Nat.id in Ht by lia.
  assert (Hin : In (Z.to_nat n) (seq 0 365)) by (apply in_seq; lia).
  apply Ht in Hin.
  assert (Hok : month_day_ok n leapyear = true).
  { destruct leapyear; apply andb_prop in Hin; tauto. }
  unfold month_day_ok in Hok. rewrite Hmd in Hok.
  apply andb_prop in Hok as [Hok H3]. apply andb_prop in Hok as [H1 H2].
  lia.
Qed.

(** A year written by its place in the 400-year cycle. *)
Lemma is_leap_cycle n400 n100 n4 n1 :
  0 ≤ n100 ≤ 3 → 0 ≤ n4 ≤ 24 → 0 ≤ n1 ≤ 3 →
  is_leap (n400 * 400 + 1 + n100 * 100 + n4 * 4 + n1) =
  (n1 =? 3) && (negb (n4 =? 24) || (n100 =? 3)).
Proof.
  intros H100 H4 H1. unfold is_leap.
  set (y := n400 * 400 + 1 + n100 * 100 + n4 * 4 + n1).
  assert (E4 : y mod 4 = (n1 + 1) mod 4).
  { unfold y.
    replace (n400 * 400 + 1 + n100 * 100 + n4 * 4 + n1)
      with ((n1 + 1) + (n400 * 100 + n100 * 25 + n4) * 4) by lia.
    apply Z.mod_add. lia. }
  assert (E100 : y mod 100 = (n4 * 4 + n1 + 1) mod 100).
  { unfold y.
    replace (n400 * 400 + 1 + n100 * 100 + n4 * 4 + n1)
      with ((n4 * 4 + n1 + 1) + (n400 * 4 + n100) * 100) by lia.
    apply Z.mod_add. lia. }
  assert (E400 : y mod 400 = (n100 * 100 + n4 * 4 + n1 + 1) mod 400).
  { unfold y.
    replace (n400 * 400 + 1 + n100 * 100 + n4 * 4 + n1)
      with ((n100 * 100 + n4 * 4 + n1 + 1) + n400 * 400) by lia.
    apply Z.mod_add. lia. }
  rewrite E4, E100, E400.
  destruct (Z.eqb_spec n1 3) as [->|N1].
  - destruct (Z.eqb_spec n4 24) as [->|N4].
    + destruct (Z.eqb_spec n100 3) as [->|N100]; simpl.
      * reflexivity.
      * assert (n100 = 0 ∨ n100 = 1 ∨ n100 = 2) as [->|[->| ->]] by lia;
          reflexivity.
    + simpl. replace ((3 + 1) mod 4) with 0 by reflexivity. simpl.
      rewrite (Z.mod_small (n4 * 4 + 3 + 1)) by lia.
      destruct (Z.eqb_spec (n4 * 4 + 3 + 1) 0); [lia|]. reflexivity.
  - assert (n1 = 0 ∨ n1 = 1 ∨ n1 = 2) as [->|[->| ->]] by lia; reflexivity.
Qed.

Lemma days_before_year_cycle n400 n100 n4 n1 :
  0 ≤ n100 ≤ 3 → 0 ≤ n4 ≤ 24 → 0 ≤ n1 ≤ 3 →
  days_before_year (n400 * 400 + 1 + n100 * 100 + n4 * 4 + n1) =
  DI400Y * n400 + DI100Y * n100 + DI4Y * n4 + 365 * n1.
Proof.
  intros H100 H4 H1. unfold days_before_year, DI400Y, DI100Y, DI4Y.
  set (y' := n400 * 400 + 1 + n100 * 100 + n4 * 4 + n1 - 1).
  assert (Q4 : y' / 4 = n400 * 100 + n100 * 25 + n4).
  { symmetry. apply (Z.div_unique y' 4 _ n1); unfold y'; lia. }
  assert (Q100 : y' / 100 = n400 * 4 + n100).
  { symmetry. apply (Z.div_unique y' 100 _ (n4 * 4 + n1)); unfold y'; lia. }
  assert (Q400 : y' / 400 = n400).
  { symmetry.
    apply (Z.div_unique y' 400 _ (n100 * 100 + n4 * 4 + n1)); unfold y'; lia. }
  cbv zeta. rewrite Q4, Q100, Q400. unfold y'. lia.
Qed.

(** The date of a day number has that day number. *)
Lemma toordinal_fromordinal o : toordinal (fromordinal o) = o.
Proof.
  unfold fromordinal.
  set (n0 := o - 1).
  pose proof (Z.div_mod n0 DI400Y ltac:(discriminate)) as D400.
  pose proof (Z.mod_pos_bound n0 DI400Y ltac:(reflexivity)) as B400.
  set (n400 := n0 / DI400Y) in *. set (r1 := n0 mod DI400Y) in *.
  pose proof (Z.div_mod r1 DI100Y ltac:(discriminate)) as D100.
  pose proof (Z.mod_pos_bound r1 DI100Y ltac:(reflexivity)) as B100.
  set (n100 := r1 / DI100Y) in *. set (r2 := r1 mod DI100Y) in *.
  pose proof (Z.div_mod r2 DI4Y ltac:(discriminate)) as D4.
  pose proof (Z.mod_pos_bound r2 DI4Y ltac:(reflexivity)) as B4.
  set (n4 := r2 / DI4Y) in *. set (r3 := r2 mod DI4Y) in *.
  pose proof (Z.div_mod r3 365 ltac:(discriminate)) as D1.
  pose proof (Z.mod_pos_bound r3 365 ltac:(reflexivity)) as B1.
  set (n1 := r3 / 365) in *. set (r4 := r3 mod 365) in *.
  cbv zeta.
  unfold DI400Y, DI100Y, DI4Y in D400, B400, D100, B100, D4, B4.
  assert (0 ≤ n100 ≤ 4) by lia.
  assert (0 ≤ n4 ≤ 24) by lia.
  assert (0 ≤ n1 ≤ 4) by lia.
  destruct ((n1 =? 4) || (n100 =? 4)) eqn:Hlast.
  - (* the last day of a leap year *)
    assert (Hy : ∃ b c, 0 ≤ b ≤ 3 ∧ 0 ≤ c ≤ 23 + (if b =? 3 then 1 else 0) ∧
                n400 * 400 + 1 + n100 * 100 + n4 * 4 + n1 - 1 =
                n400 * 400 + 1 + b * 100 + c * 4 + 3 ∧
                o = DI400Y * n400 + DI100Y * b + DI4Y * c + 365 * 3 + 366).
    { unfold DI400Y, DI100Y, DI4Y.
      destruct (Z.eqb_spec n100 4) as [E100|N100].
      - exists 3, 24. simpl. lia.
      - destruct (Z.eqb_spec n1 4) as [E1|N1]; [|discriminate].
        exists n100, n4. destruct (n100 =? 3); lia. }
    destruct Hy as (b & c & Hb & Hc & Hy & Ho). rewrite Hy.
    unfold toordinal, days_before_month; cbn [year month day].
    rewrite days_before_year_cycle, is_leap_cycle by (destruct (b =? 3); lia).
    replace (DAYS_BEFORE_MONTH 12) with 334 by reflexivity.
    replace ((3 =? 3) && (negb (c =? 24) || (b =? 3))) with true.
    + simpl. unfold DI400Y, DI100Y, DI4Y in *. lia.
    + destruct (Z.eqb_spec b 3), (Z.eqb_spec c 24); simpl in *;
        try reflexivity; lia.
  - apply orb_false_elim in Hlast as [N1 N100].
    apply Z.eqb_neq in N1, N100.
    destruct (month_day r4 _) as [m d] eqn:Hmd.
    apply month_day_spec in Hmd as [Hm Hd]; [|lia].
    unfold toordinal, days_before_month; cbn [year month day].
    rewrite days_before_year_cycle, is_leap_cycle by lia.
    unfold DI400Y, DI100Y, DI4Y. lia.
Qed.

Lemma days_before_year_nonneg y : 1 ≤ y → 0 ≤ days_before_year y.
Proof.
  intros Hy. unfold days_before_year. cbv zeta.
  Z.div_mod_to_equations. lia.
Qed.

Lemma toordinal_pos d : valid d = true → 1 ≤ toordinal d.
Proof.
  unfold valid, toordinal, days_before_month, MINYEAR. intros Hv.
  repeat (apply andb_prop in Hv as [Hv ?]).
  pose proof (days_before_year_nonneg (year d) ltac:(lia)).
  assert (0 ≤ DAYS_BEFORE_MONTH (month d)).
  { assert (Hm : 1 ≤ month d ≤ 12) by lia.
    destruct (month d) as [|m|m]; try lia.
    do 4 (destruct m as [m|m|]; try (cbv; discriminate)); lia. }
  destruct (_ && _); lia.
Qed.

Lemma strptime_valid data_string dt :
  strptime data_string = inr dt → valid dt = true.
Proof.
  unfold strptime. destruct (_ ≫= _) as [dt'|]; [|discriminate].
  destruct (valid dt') eqn:Hv; [|discriminate].
  intros [= <-]. exact Hv.
Qed.

(** Adding a day to a date before the last one gives the next day
    number. *)
Lemma add_days_one dt :
  valid dt = true → toordinal dt < MAXORDINAL →
  ∃ next, add_days dt 1 = inr next ∧ toordinal next = toordinal dt + 1.
Proof.
  intros Hv Hlt. pose proof (toordinal_pos dt Hv).
  unfold add_days. cbv zeta.
  destruct (Z.ltb_spec 0 (toordinal dt + 1)); [|lia].
  destruct (Z.leb_spec (toordinal dt + 1) MAXORDINAL); [|lia].
  simpl. eexists. split; [reflexivity|]. apply toordinal_fromordinal.
Qed.

End calendar.

(** ** Runs *)

Section runs.

Context {E : Type}.

Lemma bind_ret {A B} (a : A) (k : A → M E B) : mret a ≫= k = k a.
Proof. unfold mbind, mret, M_bind, M_ret. by destruct (k a). Qed.

Lemma bind_raise {A B} (e : exn) (k : A → M E B) : raise e ≫= k = raise e.
Proof. reflexivity. Qed.

Lemma bind_lift_inr {A B} (a : A) (k : A → M E B) : lift (inr a) ≫= k = k a.
Proof. apply bind_ret. Qed.

Lemma bind_lift_inl {A B} (e : exn) (k : A → M E B) :
  lift (inl e) ≫= k = raise e.
Proof. reflexivity. Qed.

Lemma after_run {A} (t t' : list E) (r : exn + A) :
  after t (t', r) = (t ++ t', r).
Proof. reflexivity. Qed.

Lemma after_nil {A} (m : M E A) : after [] m = m.
Proof. by destruct m. Qed.

Lemma after_after {A} (t t' : list E) (m : M E A) :
  after t (after t' m) = after (t ++ t') m.
Proof. unfold after. simpl. by rewrite app_assoc. Qed.

Lemma events_after {A} (t : list E) (m : M E A) :
  events (after t m) = t ++ events m.
Proof. reflexivity. Qed.

Lemma outcome_after {A} (t : list E) (m : M E A) :
  outcome (after t m) = outcome m.
Proof. reflexivity. Qed.

Lemma bind_after {A B} (t : list E) (m : M E A) (k : A → M E B) :
  after t m ≫= k = after t (m ≫= k).
Proof.
  destruct m as [t' [e|a]]; unfold after, mbind, M_bind; simpl; [done|].
  destruct (k a). simpl. by rewrite app_assoc.
Qed.

Lemma bind_emit {B} (ev : E) (k : unit → M E B) :
  emit ev ≫= k = after [ev] (k tt).
Proof. unfold mbind, emit, M_bind, after. by destruct (k tt). Qed.

Lemma bind_run {A B} (t : list E) (a : A) (k : A → M E B) :
  (t, inr a) ≫= k = after t (k a).
Proof. unfold mbind, M_bind, after. by destruct (k a). Qed.

Lemma bind_fail {A B} (t : list E) (e : exn) (k : A → M E B) :
  (t, inl e) ≫= k = (t, inl e).
Proof. reflexivity. Qed.

Lemma try_except_fail {A} (t : list E) (e : exn) (h : exn → M E A) :
  try_except (t, inl e) h = after t (h e).
Proof. unfold try_except, after. by destruct (h e). Qed.

Lemma try_except_ok {A} (t : list E) (a : A) (h : exn → M E A) :
  try_except (t, inr a) h = (t, inr a).
Proof. reflexivity. Qed.

(** A clause that only raises the exception again changes nothing. *)
Lemma try_except_reraise {A} (m : M E A) : try_except m (λ e, raise e) = m.
Proof.
  destruct m as [t [e|a]]; simpl; [|done]. by rewrite app_nil_r.
Qed.

End runs.

(** ** The scripts *)

Section properties.

Context {coord : Type} `{EqDecision coord} (isna : coord → bool).
Context {extra record : Type}.
Variable os_path_join : string → string → string.

Local Abbreviation table := (list (row (coord:=coord) record)).
Local Abbreviation world := (world (coord:=coord) (extra:=extra) (record:=record)).
Local Abbreviation event := (event (coord:=coord) (extra:=extra) (record:=record)).
Local Abbreviation location := (row (coord:=coord) extra).
Local Abbreviation fetch_params := (fetch_params (coord:=coord)).

(** *** The expected row count *)

Lemma time_step_ref_sub_daily time_step step_minutes :
  (time_step, step_minutes) ∈ sub_daily_steps →
  String.eqb time_step "1M" = false ∧
  time_step_ref !! time_step = Some (Some step_minutes).
Proof.
  unfold sub_daily_steps. rewrite !elem_of_cons, elem_of_nil.
  intros [[= -> ->]|[[= -> ->]|[[= -> ->]|[]]]]; split; reflexivity.
Qed.

(** For a step counted in minutes, the expected count is the number of
    distinct latitudes times the whole number of steps from the start of
    [start_date] to the start of the day after [end_date]. *)
Lemma expected_rows_minutes (output_data : table)
    (start_date end_date time_step : string) s e step_minutes :
  datetime.strptime start_date = inr s →
  datetime.strptime end_date = inr e →
  (datetime.toordinal e < datetime.MAXORDINAL)%Z →
  (time_step, step_minutes) ∈ sub_daily_steps →
  expected_rows (extra:=extra) isna output_data start_date end_date time_step =
  mret (Z.of_nat (nunique isna (Latitude <$> output_data)) *
        (datetime.minutes_through s e / step_minutes))%Z.
Proof.
  intros Hs He Hlt Hstep.
  destruct (time_step_ref_sub_daily _ _ Hstep) as [HM Href].
  destruct (add_days_one e (strptime_valid _ _ He) Hlt) as (next & Hnext & Hord).
  unfold expected_rows. cbv zeta.
  rewrite Hs, bind_lift_inr, He, bind_lift_inr, HM, Hnext, bind_lift_inr.
  rewrite Href, bind_ret.
  unfold datetime.total_seconds, datetime.sub, datetime.minutes_through.
  rewrite Hord.
  replace ((datetime.toordinal e + 1 - datetime.toordinal s) * 86400 / 60)%Z
    with ((datetime.toordinal e + 1 - datetime.toordinal s) * 24 * 60)%Z.
  - by rewrite Z.mul_comm.
  - apply Z.div_unique_exact; lia.
Qed.

Lemma expected_rows_months (output_data : table) (start_date end_date : string) s e :
  datetime.strptime start_date = inr s →
  datetime.strptime end_date = inr e →
  expected_rows (extra:=extra) isna output_data start_date end_date "1M" =
  mret (((datetime.year e - datetime.year s) * 12 +
         (datetime.month e - datetime.month s) + 1) *
        Z.of_nat (nunique isna (Latitude <$> output_data)))%Z.
Proof.
  intros Hs He. unfold expected_rows. cbv zeta.
  rewrite Hs, bind_lift_inr, He, bind_lift_inr. reflexivity.
Qed.

(** C1. For a step of 1min, 15min or 1h, [validate_output] (its lines 144
    to 165, [expected_rows]) computes the expected row count as the number
    of distinct locations it counts in the table times the whole number of
    steps in the minutes from the start of [start_date] to the start of the
    day after [end_date]; it does so whatever the order of the two dates,
    for every end date that has a day after it. With 2 locations, both
    dates 2023-01-01 and step 1h the count is 48. *)
Theorem expected_rows_sub_daily :
  (∀ (output_data : table) (start_date end_date time_step : string)
     (s e : datetime.datetime) (step_minutes : Z),
     datetime.strptime start_date = inr s →
     datetime.strptime end_date = inr e →
     (datetime.toordinal e < datetime.MAXORDINAL)%Z →
     (time_step, step_minutes) ∈ sub_daily_steps →
     expected_rows (extra:=extra) isna output_data start_date end_date time_step =
     mret (Z.of_nat (nunique isna (Latitude <$> output_data)) *
           (datetime.minutes_through s e / step_minutes))%Z) ∧
  (∀ output_data : table,
     nunique isna (Latitude <$> output_data) = 2 →
     expected_rows (extra:=extra) isna output_data "2023-01-01" "2023-01-01" "1h" =
     mret 48%Z).
Proof.
  split.
  - intros. by apply expected_rows_minutes.
  - intros output_data Hn.
    rewrite (expected_rows_minutes output_data "2023-01-01" "2023-01-01" "1h"
               (datetime.mk_datetime 2023 1 1) (datetime.mk_datetime 2023 1 1) 60);
      [by rewrite Hn|reflexivity|reflexivity|reflexivity|].
    unfold sub_daily_steps. set_solver.
Qed.

(** C3. For the step 1M, [validate_output] computes the expected row count
    as the months from the month of [start_date] to the month of
    [end_date], both counted, times the number of distinct locations it
    counts; 3 locations from 2023-01-15 to 2023-03-15 give 9. *)
Theorem expected_rows_monthly :
  (∀ (output_data : table) (start_date end_date : string)
     (s e : datetime.datetime),
     datetime.strptime start_date = inr s →
     datetime.strptime end_date = inr e →
     expected_rows (extra:=extra) isna output_data start_date end_date "1M" =
     mret (((datetime.year e - datetime.year s) * 12 +
            (datetime.month e - datetime.month s) + 1) *
           Z.of_nat (nunique isna (Latitude <$> output_data)))%Z) ∧
  (∀ output_data : table,
     nunique isna (Latitude <$> output_data) = 3 →
     expected_rows (extra:=extra) isna output_data "2023-01-15" "2023-03-15" "1M" =
     mret 9%Z).
Proof.
  split.
  - intros. by apply expected_rows_months.
  - intros output_data Hn.
    rewrite (expected_rows_months output_data "2023-01-15" "2023-03-15"
               (datetime.mk_datetime 2023 1 15) (datetime.mk_datetime 2023 3 15));
      [by rewrite Hn|reflexivity|reflexivity].
Qed.

(** *** The validator *)


Lemma validate_output_run (w : world) (output_data : table)
    start_date end_date time_step output_folder (exp_rows : Z) :
  expected_rows (extra:=extra) isna output_data start_date end_date time_step =
    mret exp_rows →
  validate_output isna w output_data start_date end_date time_step output_folder =
  let found := Z.of_nat (length output_data) in
  if bool_decide (found = exp_rows) then
    ([ ToCsv (output_file_name w output_folder) output_data;
       Print (Text ("expected row count: " +:+ pretty exp_rows +:+
                    " found rows: " +:+ pretty found));
       Print (Text ("Output validation successful. Output saved to: " +:+
                    output_file_name w output_folder)) ],
     inr true)
  else
    ([], inl (ValueError ("Expected row count: " +:+ pretty exp_rows +:+
                          ", but found " +:+ pretty found +:+ " rows."))).
Proof.
  intros Hexp. unfold validate_output.
  rewrite try_except_reraise, Hexp, bind_ret. cbv zeta.
  by case_bool_decide.
Qed.


(** C5. With the step 1d, which the table of steps does not have,
    [validate_output] fails with the key-lookup error of that table,
    whatever the table of rows is: it neither compares row counts nor
    writes a file. *)
Theorem validate_output_1d (w : world) (output_data : table)
    (start_date end_date output_folder : string) (s e : datetime.datetime) :
  datetime.strptime start_date = inr s →
  datetime.strptime end_date = inr e →
  (datetime.toordinal e < datetime.MAXORDINAL)%Z →
  validate_output isna w output_data start_date end_date "1d" output_folder =
    raise (KeyError "1d") ∧
  time_step_ref !! "1d" = None ∧
  dom time_step_ref = {[ "1min"; "15min"; "1h"; "1M" ]}.
Proof.
  intros Hs He Hlt. split; [|split].
  - destruct (add_days_one e (strptime_valid _ _ He) Hlt) as (next & Hnext & _).
    unfold validate_output, expected_rows. cbv zeta.
    rewrite try_except_reraise.
    rewrite Hs, bind_lift_inr, He, bind_lift_inr.
    replace (String.eqb "1d" "1M") with false by reflexivity.
    rewrite Hnext, bind_lift_inr.
    replace (time_step_ref !! "1d") with (@None (option Z)) by reflexivity.
    reflexivity.
  - reflexivity.
  - unfold time_step_ref. rewrite !dom_insert_L, dom_singleton_L. set_solver.
Qed.

(** *** Counting locations *)



(** *** The chunker *)

Lemma range_go_lookup fuel start stop step k st :
  range_go fuel start stop step !! k = Some st →
  st = start + k * step ∧ st < stop.
Proof.
  revert start k. induction fuel as [|fuel IH]; intros start k; simpl.
  - by rewrite lookup_nil.
  - destruct (Nat.ltb_spec start stop) as [Hlt|Hge]; [|by rewrite lookup_nil].
    destruct k as [|k]; simpl.
    + intros [= <-]. lia.
    + intros Hk. apply IH in Hk. lia.
Qed.

Lemma range_go_length fuel start stop :
  stop - start ≤ fuel →
  length (range_go fuel start stop chunk_size) = (stop - start + 99) / 100.
Proof.
  unfold chunk_size.
  revert start. induction fuel as [|fuel IH]; intros start Hfuel;
    cbn [range_go].
  - replace (stop - start) with 0 by lia. reflexivity.
  - destruct (Nat.ltb_spec start stop) as [Hlt|Hge].
    + cbn [length]. rewrite IH by lia.
      destruct (Nat.le_gt_cases stop (start + 100)) as [Hlast|Hmore].
      * replace (stop - (start + 100)) with 0 by lia.
        change ((0 + 99) / 100) with 0.
        apply (Nat.div_unique _ _ _ (stop - start - 1)); lia.
      * replace (stop - start + 99) with (stop - (start + 100) + 99 + 1 * 100)
          by lia.
        rewrite Nat.div_add by lia. lia.
    + replace (stop - start) with 0 by lia. reflexivity.
Qed.

Lemma concat_range_go {A} (rows : list A) fuel start :
  length rows - start ≤ fuel →
  concat ((λ st, iloc rows st (st + chunk_size)) <$>
          range_go fuel start (length rows) chunk_size) = drop start rows.
Proof.
  revert start. induction fuel as [|fuel IH]; intros start Hfuel; simpl.
  - rewrite drop_ge by lia. reflexivity.
  - destruct (Nat.ltb_spec start (length rows)) as [Hlt|Hge].
    + simpl. rewrite IH by (unfold chunk_size; lia).
      unfold iloc. replace (start + chunk_size - start) with chunk_size by lia.
      rewrite <- drop_drop. apply take_drop.
    + rewrite drop_ge by lia. reflexivity.
Qed.

Lemma chunk_loop_run {A} (rows : list A) output_folder starts i0 last :
  chunk_loop os_path_join rows output_folder (enumerate_from i0 starts) last =
  (imap (λ k st, ChunkToCsv
                   (os_path_join output_folder (chunk_file_name (i0 + k)))
                   (iloc rows st (st + chunk_size))) starts,
   inr (match starts with
        | [] => last
        | _ => Some (i0 + length starts - 1)
        end)).
Proof.
  revert i0 last. induction starts as [|st starts IH]; intros i0 last.
  - reflexivity.
  - cbn [chunk_loop enumerate_from]. rewrite bind_emit, IH, after_run.
    cbn [imap app]. rewrite Nat.add_0_r. f_equal.
    + f_equal. apply imap_ext. intros k st' _. simpl.
      by rewrite Nat.add_succ_r.
    + f_equal. destruct starts; f_equal; simpl; lia.
Qed.

(** C2. For an input table of at least one row, [chunk_data] cuts the rows
    into consecutive blocks of 100 in their order, the last one possibly
    smaller, writes block number i (from 1) to the file
    unprocessed_data_<i>.csv of the output folder, and returns the number
    of blocks, which is the number of rows divided by 100 and rounded up;
    the blocks put together in order are the input rows. 250 rows give
    blocks of 100, 100 and 50 rows. *)
Theorem chunk_data_partition {A} (read_csv : string → exn + list A)
    (file_path output_folder : string) (rows : list A) :
  read_csv file_path = inr rows →
  1 ≤ length rows →
  ∃ chunks : list (list A),
    chunk_data os_path_join read_csv file_path output_folder =
      (imap (λ i chunk,
               ChunkToCsv
                 (os_path_join output_folder
                    ("unprocessed_data_" +:+ pretty (i + 1) +:+ ".csv"))
                 chunk) chunks ++
       [SetupPrint ("Successfully created " +:+ pretty (length chunks) +:+
                    " chunked files in '" +:+ output_folder +:+ "'.")],
       inr (length chunks)) ∧
    concat chunks = rows ∧
    (∀ i chunk, chunks !! i = Some chunk →
       chunk = take 100 (drop (100 * i) rows) ∧
       1 ≤ length chunk ≤ 100 ∧
       (i + 1 < length chunks → length chunk = 100)) ∧
    length chunks = (length rows + 99) / 100 ∧
    100 * (length chunks - 1) < length rows ≤ 100 * length chunks ∧
    (length rows = 250 → length <$> chunks = [100; 100; 50]).
Proof.
  intros Hread Hrows.
  set (starts := range 0 (length rows) chunk_size).
  set (chunks := (λ st, iloc rows st (st + chunk_size)) <$> starts).
  assert (Hlen : length chunks = (length rows + 99) / 100).
  { unfold chunks, starts, range. rewrite length_fmap, range_go_length by lia.
    by rewrite Nat.sub_0_r. }
  assert (Hbounds : 100 * (length chunks - 1) < length rows ≤ 100 * length chunks).
  { rewrite Hlen.
    pose proof (Nat.div_mod_eq (length rows + 99) 100).
    pose proof (Nat.mod_upper_bound (length rows + 99) 100). lia. }
  assert (Hlookup : ∀ i chunk, chunks !! i = Some chunk →
            chunk = take 100 (drop (100 * i) rows) ∧ 100 * i < length rows).
  { intros i chunk Hi. unfold chunks in Hi. rewrite list_lookup_fmap in Hi.
    destruct (starts !! i) as [st|] eqn:Hst; [|done].
    apply range_go_lookup in Hst as [-> Hlt]. injection Hi as <-.
    unfold iloc, chunk_size in *. split; [|lia].
    f_equal; [lia|f_equal; lia]. }
  exists chunks.
  split; [|split; [|split; [|split; [exact Hlen|split; [lia|]]]]].
  - unfold chunk_data. rewrite Hread, bind_lift_inr.
    fold starts. unfold enumerate. rewrite chunk_loop_run, bind_run.
    assert (Hlast : ∀ l : list nat, 1 ≤ length l →
              match l with
              | [] => None
              | _ => Some (0 + length l - 1)
              end = Some (length l - 1)).
    { intros [|? ?] Hl; simpl in *; [lia|done]. }
    assert (Hstarts : length starts = length chunks).
    { unfold chunks. by rewrite length_fmap. }
    rewrite Hlast, Hstarts by lia.
    cbv beta iota. rewrite bind_emit. unfold mret, M_ret.
    rewrite !after_run, app_nil_r.
    replace (length chunks - 1 + 1) with (length chunks) by lia.
    f_equal. f_equal. unfold chunks. by rewrite imap_fmap.
  - unfold chunks, starts, range.
    rewrite concat_range_go by lia. apply drop_0.
  - intros i chunk Hi. pose proof (lookup_lt_Some _ _ _ Hi) as Hlt.
    destruct (Hlookup i chunk Hi) as [-> Hi'].
    rewrite length_take, length_drop. split; [done|]. split; lia.
  - intros H250. unfold chunks, starts. rewrite H250.
    change (range 0 250 chunk_size) with [0; 100; 200].
    simpl. unfold iloc, chunk_size. rewrite !length_take, !length_drop, H250.
    reflexivity.
Qed.

(** *** The fetch loop *)

Lemma fetch_except_run idx e :
  fetch_except (coord:=coord) (extra:=extra) (record:=record) idx e =
  raise (NameError "latitude").
Proof. reflexivity. Qed.

(** One turn of the loop: the [try] statement. *)
Lemma fetch_try_run (w : world) (p : fetch_params) idx (r : location)
    (cams_df : table) :
  try_except
    (let rq := request_for p r in
     emit (Print (Args rq));;
     emit (GetCams rq);;
     data ← lift (get_cams w idx rq);
     let data := (λ d, Row (Latitude r) (Longitude r) d) <$> data in
     mret (cams_df ++ data))
    (fetch_except idx) =
  (call_events p [r],
   match get_cams w idx (request_for p r) with
   | inl _ => inl (NameError "latitude")
   | inr data =>
       inr (cams_df ++ ((λ d, Row (Latitude r) (Longitude r) d) <$> data))
   end).
Proof.
  cbv zeta. rewrite !bind_emit.
  destruct (get_cams w idx (request_for p r)) as [e|data]; reflexivity.
Qed.

Lemma call_events_cons (p : fetch_params) (r : location) rows :
  call_events (record:=record) p (r :: rows) =
  call_events p [r] ++ call_events p rows.
Proof. reflexivity. Qed.

Lemma fetch_loop_failure (w : world) (p : fetch_params) rows :
  ∀ i (cams_df : table) k r e,
    rows !! k = Some r →
    get_cams w (i + k) (request_for p r) = inl e →
    ∃ j r' e',
      j ≤ k ∧ rows !! j = Some r' ∧
      get_cams w (i + j) (request_for p r') = inl e' ∧
      fetch_loop w p (enumerate_from i rows) cams_df =
      (call_events p (take (S j) rows), inl (NameError "latitude")).
Proof.
  induction rows as [|r0 rows IH]; intros i cams_df k r e Hk Hfail.
  - by rewrite lookup_nil in Hk.
  - cbn [enumerate_from fetch_loop]. rewrite fetch_try_run.
    destruct (get_cams w i (request_for p r0)) as [e0|data] eqn:H0.
    + exists 0, r0, e0. rewrite Nat.add_0_r.
      split; [lia|]. split; [done|]. split; [done|].
      rewrite bind_fail. cbn [take]. by rewrite take_0.
    + destruct k as [|k].
      { injection Hk as ->. rewrite Nat.add_0_r in Hfail. congruence. }
      rewrite Nat.add_succ_r in Hfail.
      destruct (IH (S i) (cams_df ++ ((λ d, Row (Latitude r0) (Longitude r0) d) <$> data))
                  k r e Hk Hfail) as (j & r' & e' & Hj & Hr' & He' & Hrun).
      exists (S j), r', e'. rewrite Nat.add_succ_r.
      split; [lia|]. split; [done|]. split; [done|].
      rewrite bind_run, Hrun, after_run. cbn [take].
      by rewrite (call_events_cons p r0).
Qed.

(** C7. When the CAMS client fails for a location, [fetch_cams_data] ends
    with an exception and returns no table; the client has been called once
    for each location up to the first that failed and for no other; and the
    exception is the NameError of the name [latitude], which the clause
    that handles the failure evaluates and which nothing binds (nor
    [longitude]), not the exception of the client. *)
Theorem fetch_cams_data_failure (w : world) (solar_data : list location)
    (p : fetch_params) (k : nat) (r : location) (e : exn) :
  solar_data !! k = Some r →
  get_cams w k (request_for p r) = inl e →
  ∃ (j : nat) (r' : location) (e' : exn),
    j ≤ k ∧ solar_data !! j = Some r' ∧
    get_cams w j (request_for p r') = inl e' ∧
    fetch_cams_data w solar_data p =
      (call_events p (take (S j) solar_data), inl (NameError "latitude")) ∧
    names.resolve fetch_cams_data_locals module_globals "latitude" =
      names.Unbound ∧
    names.resolve fetch_cams_data_locals module_globals "longitude" =
      names.Unbound.
Proof.
  intros Hk Hfail.
  destruct (fetch_loop_failure w p solar_data 0 [] k r e Hk Hfail)
    as (j & r' & e' & Hj & Hr' & He' & Hrun).
  exists j, r', e'. repeat split; done.
Qed.

(** What a fetch does is print and call, whatever the client answers. *)
Lemma fetch_loop_events (w : world) (p : fetch_params) rows :
  ∀ i (cams_df : table),
    Forall (λ ev, saves_or_archives ev = false)
      (events (fetch_loop w p (enumerate_from i rows) cams_df)).
Proof.
  induction rows as [|r0 rows IH]; intros i cams_df.
  - constructor.
  - cbn [enumerate_from fetch_loop]. rewrite fetch_try_run.
    destruct (get_cams w i (request_for p r0)) as [e0|data].
    + rewrite bind_fail. by repeat constructor.
    + rewrite bind_run, events_after. apply Forall_app. split.
      * by repeat constructor.
      * apply IH.
Qed.

(** *** The orchestrator *)

Lemma main_except_run ex :
  main_except (coord:=coord) (extra:=extra) (record:=record) ex =
  ([Print (ErrorText "Main: An error occured " ex)],
   inl (NameError "traceback")).
Proof. reflexivity. Qed.

(** C10. No import binds the name [traceback], so whenever an exception
    reaches the handler of [main], the handler prints its message and then
    fails itself: [main] ends with the NameError of [traceback]. *)
Theorem main_handler_fails (w : world) (t : list event) (ex : exn) :
  main_try isna os_path_join w = (t, inl ex) →
  main isna os_path_join w =
    (t ++ [Print (ErrorText "Main: An error occured " ex)],
     inl (NameError "traceback")) ∧
  ("traceback" ∉ module_globals) ∧
  names.resolve main_locals module_globals "traceback" = names.Unbound.
Proof.
  intros Htry. split; [|split].
  - unfold main. by rewrite Htry, try_except_fail, main_except_run.
  - apply (bool_decide_unpack _). reflexivity.
  - reflexivity.
Qed.

Lemma getitem_present (config : gmap string string) key :
  is_Some (config !! key) →
  getitem (coord:=coord) (extra:=extra) (record:=record) config key =
  mret (default "" (config !! key)).
Proof. intros [v Hv]. unfold getitem. by rewrite Hv. Qed.

Lemma get_file_to_process_events (w : world) data_folder :
  Forall (λ ev, fetches_saves_or_archives ev = false)
    (events (get_file_to_process os_path_join w data_folder)).
Proof.
  unfold get_file_to_process.
  destruct (listdir w data_folder) as [e|entries]; [by repeat constructor|].
  rewrite bind_lift_inr. cbv zeta.
  destruct (_ <$> sort_by_key _); by repeat constructor.
Qed.

Lemma saves_or_archives_fetches (ev : event) :
  fetches_saves_or_archives ev = false → saves_or_archives ev = false.
Proof. by destruct ev. Qed.

(** With no file among its entries, a folder has nothing to pick. *)
Lemma get_file_to_process_none (w : world) data_folder entries :
  listdir w data_folder = inr entries →
  Forall (λ f, d_isfile f = false) entries →
  get_file_to_process os_path_join w data_folder =
  ([Print (Text "There is no datafile to process.")], inr None).
Proof.
  intros Hlist Hnone. unfold get_file_to_process.
  rewrite Hlist, bind_lift_inr. cbv zeta.
  assert (Hfiles : filter (λ f, d_isfile f = true) entries = []).
  { clear Hlist. induction Hnone as [|f entries Hf _ IH]; [reflexivity|].
    rewrite filter_cons_False; [exact IH|]. by rewrite Hf. }
  by rewrite Hfiles.
Qed.

(** The statements of [main] down to the choice of the file, when the
    configuration loads and has its keys. *)
Ltac main_configured Hload Hkeys :=
  unfold required_keys in Hkeys;
  repeat (apply Forall_cons in Hkeys as [? Hkeys]);
  unfold main, main_try, load_config; rewrite Hload;
  rewrite bind_emit;
  unfold lift; rewrite try_except_ok, bind_run, after_nil;
  rewrite !getitem_present, !bind_ret by done;
  rewrite bind_emit, after_after.

(** C8, on the code. With no file in the unprocessed folder
    [get_file_to_process] prints that there is none and returns None; but
    [main] then splits the path it did not get, before it tests it, and
    the handler of that error fails in turn: the run ends with a NameError,
    having fetched, saved and archived nothing. *)
Theorem main_no_pending_file (w : world) (config : gmap string string)
    (entries : list dirent) :
  json_load w "config.json" = inr config →
  Forall (λ key, is_Some (config !! key)) required_keys →
  listdir w (default "" (config !! "unprocessed_folder")) = inr entries →
  Forall (λ f, d_isfile f = false) entries →
  get_file_to_process os_path_join w
      (default "" (config !! "unprocessed_folder")) =
    ([Print (Text "There is no datafile to process.")], inr None) ∧
  main isna os_path_join w =
    ([ Print (Text (getcwd w));
       Print (Tuple ((λ key, default "" (config !! key)) <$>
                [ "sky_type"; "start_date"; "end_date"; "time_step";
                  "time_reference"; "unprocessed_folder";
                  "processed_folder"; "results_folder"; "server_name";
                  "timeout"; "email" ]));
       Print (Text "There is no datafile to process.");
       Print (ErrorText "Main: An error occured "
                (AttributeError "'NoneType' object has no attribute 'split'")) ],
     inl (NameError "traceback")) ∧
  Forall (λ ev, fetches_saves_or_archives ev = false)
    (events (main isna os_path_join w)).
Proof.
  intros Hload Hkeys Hlist Hnone.
  pose proof (get_file_to_process_none w _ _ Hlist Hnone) as Hpick.
  assert (Hmain : main isna os_path_join w =
    ([ Print (Text (getcwd w));
       Print (Tuple ((λ key, default "" (config !! key)) <$>
                [ "sky_type"; "start_date"; "end_date"; "time_step";
                  "time_reference"; "unprocessed_folder";
                  "processed_folder"; "results_folder"; "server_name";
                  "timeout"; "email" ]));
       Print (Text "There is no datafile to process.");
       Print (ErrorText "Main: An error occured "
                (AttributeError "'NoneType' object has no attribute 'split'")) ],
     inl (NameError "traceback"))).
  { main_configured Hload Hkeys.
    rewrite Hpick, bind_run. unfold split_path. rewrite bind_raise.
    unfold raise. rewrite !after_run, try_except_fail, main_except_run.
    reflexivity. }
  split; [exact Hpick|]. split; [exact Hmain|].
  rewrite Hmain. by repeat constructor.
Qed.

(** C9, on the code. When the fetch returns a table of no rows, [main]
    raises a text, which is a TypeError and not the error the text
    describes; the handler prints that TypeError and fails in turn, so the
    run ends with a NameError. Nothing is saved and nothing is archived. *)
Theorem main_empty_result (w : world) (config : gmap string string)
    (datafile : string) (solar_data : list location)
    (t_pick t_fetch : list event) :
  let value := λ key, default "" (config !! key) in
  json_load w "config.json" = inr config →
  Forall (λ key, is_Some (config !! key)) required_keys →
  get_file_to_process os_path_join w (value "unprocessed_folder") =
    (t_pick, inr (Some datafile)) →
  read_csv w datafile = inr solar_data →
  fetch_cams_data w solar_data
    (FetchParams (value "start_date") (value "end_date") (value "email")
       (value "sky_type") None (value "time_step") (value "time_reference")
       false false None true (Some (value "server_name"))
       (Some (value "timeout"))) = (t_fetch, inr []) →
  outcome (main isna os_path_join w) = inl (NameError "traceback") ∧
  last (events (main isna os_path_join w)) =
    Some (Print (ErrorText "Main: An error occured "
                   (TypeError "exceptions must derive from BaseException"))) ∧
  Forall (λ ev, saves_or_archives ev = false)
    (events (main isna os_path_join w)).
Proof.
  intros value Hload Hkeys Hpick Hread Hfetch. unfold value in *.
  assert (Hmain : ∃ t,
    Forall (λ ev, saves_or_archives ev = false) t ∧
    main isna os_path_join w =
    (t ++ [Print (ErrorText "Main: An error occured "
                    (TypeError "exceptions must derive from BaseException"))],
     inl (NameError "traceback"))).
  { pose proof (get_file_to_process_events w
                  (default "" (config !! "unprocessed_folder"))) as Hpick_ev.
    rewrite Hpick in Hpick_ev.
    pose proof (fetch_loop_events w
      (FetchParams (default "" (config !! "start_date"))
         (default "" (config !! "end_date")) (default "" (config !! "email"))
         (default "" (config !! "sky_type")) None
         (default "" (config !! "time_step"))
         (default "" (config !! "time_reference"))
         false false None true (Some (default "" (config !! "server_name")))
         (Some (default "" (config !! "timeout")))) solar_data 0 [])
      as Hfetch_ev.
    unfold fetch_cams_data, enumerate in Hfetch. rewrite Hfetch in Hfetch_ev.
    unfold events in Hpick_ev, Hfetch_ev. simpl in Hpick_ev, Hfetch_ev.
    main_configured Hload Hkeys.
    rewrite Hpick, bind_run. unfold split_path. rewrite bind_ret, bind_emit.
    assert (Hsay : ∃ l,
      (if truthy (Some datafile)
       then emit (Print (Text ("Processing " +:+ default "" (Some datafile))))
       else emit (Print (Text "There is no datafile to process."))) =
      emit (E:=event) (Print l)).
    { destruct (truthy (Some datafile)); eauto. }
    destruct Hsay as [l ->]. rewrite bind_emit.
    unfold pd_read_csv. rewrite Hread, bind_lift_inr, !bind_emit.
    unfold fetch_cams_data, enumerate. rewrite Hfetch, bind_run.
    rewrite bool_decide_eq_true_2 by done. rewrite bind_raise.
    unfold raise. rewrite !after_run, try_except_fail, main_except_run, after_run.
    eexists. split; [|reflexivity].
    rewrite app_nil_r.
    repeat (apply Forall_app; split); try by repeat constructor.
    eapply Forall_impl; [exact Hpick_ev|]. apply saves_or_archives_fetches. }
  destruct Hmain as (t & Ht & ->). unfold outcome, events. cbn [fst snd].
  split; [done|]. split; [apply last_snoc|].
  apply Forall_app. split; [done|]. by repeat constructor.
Qed.

(** *** At the edges *)

(** The table of an empty input: the loop never binds [i]. *)
Lemma chunk_data_no_rows {A} (read_csv : string → exn + list A)
    (file_path output_folder : string) :
  read_csv file_path = inr [] →
  chunk_data os_path_join read_csv file_path output_folder =
  raise (UnboundLocalError "i").
Proof. intros Hread. unfold chunk_data. by rewrite Hread, bind_lift_inr. Qed.

(** The last day a [datetime] can hold has no day after it. *)
Lemma expected_rows_last_day (output_data : table) (start_date : string) s :
  datetime.strptime start_date = inr s →
  expected_rows (extra:=extra) isna output_data start_date "9999-12-31" "1h" =
  raise (OverflowError "date value out of range").
Proof.
  intros Hs. unfold expected_rows. cbv zeta.
  by rewrite Hs, bind_lift_inr.
Qed.

(** When every call succeeds the fetch returns the tables of the
    locations, each with the coordinates of its location, in order. *)
Lemma fetch_loop_success (w : world) (p : fetch_params) rows :
  ∀ i (cams_df : table) (answers : list (list record)),
    Forall2 (λ ir data, get_cams w ir.1 (request_for p ir.2) = inr data)
      (enumerate_from i rows) answers →
    fetch_loop w p (enumerate_from i rows) cams_df =
    (call_events p rows,
     inr (cams_df ++
          mjoin (zip_with (λ (r : location) data,
                   (λ d, Row (Latitude r) (Longitude r) d) <$> data)
                   rows answers))).
Proof.
  induction rows as [|r0 rows IH]; intros i cams_df answers Hall.
  - apply Forall2_nil_inv_l in Hall as ->. simpl. by rewrite app_nil_r.
  - cbn [enumerate_from] in Hall.
    apply Forall2_cons_inv_l in Hall as (data & answers' & H0 & Hall & ->).
    cbn [enumerate_from fetch_loop]. rewrite fetch_try_run. simpl in H0.
    rewrite H0, bind_run, (IH _ _ _ Hall), after_run.
    rewrite (call_events_cons p r0). simpl. by rewrite app_assoc.
Qed.

End properties.

(** ** The properties at work on the example installation *)

Lemma expected_rows_sub_daily_witness :
  expected_rows (extra:=unit) example.isna example.two_days
    "2023-01-01" "2023-01-01" "1h" = mret 48%Z.
Proof.
  rewrite (proj1 (expected_rows_sub_daily example.isna) example.two_days
             "2023-01-01" "2023-01-01" "1h"
             (datetime.mk_datetime 2023 1 1) (datetime.mk_datetime 2023 1 1)
             60%Z).
  - reflexivity.
  - reflexivity.
  - reflexivity.
  - reflexivity.
  - apply (bool_decide_unpack _). reflexivity.
Defined.

Lemma chunk_data_partition_witness :
  ∃ chunks : list (list nat),
    outcome (chunk_data example.os_path_join (λ _, inr (seq 0 250))
               "solar_farms.csv" "unprocessed") = inr (length chunks) ∧
    concat chunks = seq 0 250 ∧
    length <$> chunks = [100; 100; 50].
Proof.
  destruct (chunk_data_partition example.os_path_join (λ _, inr (seq 0 250))
              "solar_farms.csv" "unprocessed" (seq 0 250) eq_refl)
    as (chunks & Hrun & Hcat & _ & _ & _ & H250).
  - rewrite length_seq. lia.
  - exists chunks. rewrite Hrun. split; [reflexivity|].
    split; [exact Hcat|]. apply H250, length_seq.
Defined.

Lemma expected_rows_monthly_witness :
  expected_rows (extra:=unit) example.isna example.two_days
    "2023-01-15" "2023-03-15" "1M" = mret 6%Z.
Proof.
  rewrite (proj1 (expected_rows_monthly example.isna) example.two_days
             "2023-01-15" "2023-03-15"
             (datetime.mk_datetime 2023 1 15) (datetime.mk_datetime 2023 3 15)).
  - reflexivity.
  - reflexivity.
  - reflexivity.
Defined.



Lemma validate_output_1d_witness :
  validate_output (extra:=unit) example.isna
    (example.installation example.pending (λ _, inr example.a_day))
    example.two_days "2023-01-01" "2023-01-01" "1d" "results" =
  raise (KeyError "1d").
Proof.
  apply (validate_output_1d example.isna
           (example.installation example.pending (λ _, inr example.a_day))
           example.two_days "2023-01-01" "2023-01-01" "results"
           (datetime.mk_datetime 2023 1 1) (datetime.mk_datetime 2023 1 1)).
  - reflexivity.
  - reflexivity.
  - reflexivity.
Defined.


Lemma fetch_cams_data_failure_witness :
  outcome (fetch_cams_data
             (example.installation example.pending
                (λ i, if Nat.eqb i 1 then inl (LibraryError "timed out")
                      else inr example.a_day))
             example.locations example.params) =
  inl (NameError "latitude").
Proof.
  destruct (fetch_cams_data_failure
              (example.installation example.pending
                 (λ i, if Nat.eqb i 1 then inl (LibraryError "timed out")
                       else inr example.a_day))
              example.locations example.params 1 (Row 48%Z 2%Z tt)
              (LibraryError "timed out") eq_refl eq_refl)
    as (j & r' & e' & _ & _ & _ & Hrun & _).
  by rewrite Hrun.
Defined.

Lemma required_keys_example :
  Forall (λ key, is_Some (example.config !! key)) required_keys.
Proof. apply (bool_decide_unpack _). reflexivity. Defined.

Lemma main_no_pending_file_witness :
  outcome (main example.isna example.os_path_join
             (example.installation [] (λ _, inr example.a_day))) =
  inl (NameError "traceback").
Proof.
  destruct (main_no_pending_file example.isna example.os_path_join
              (example.installation [] (λ _, inr example.a_day))
              example.config [] eq_refl required_keys_example eq_refl
              (Forall_nil_2 _))
    as (_ & Hmain & _).
  by rewrite Hmain.
Defined.

Lemma main_empty_result_witness :
  outcome (main example.isna example.os_path_join
             (example.installation example.pending (λ _, inr []))) =
  inl (NameError "traceback").
Proof.
  apply (main_empty_result example.isna example.os_path_join
           (example.installation example.pending (λ _, inr []))
           example.config
           (example.os_path_join "unprocessed" "unprocessed_data_1.csv")
           example.locations []
           (call_events example.params example.locations)
           eq_refl required_keys_example eq_refl eq_refl eq_refl).
Defined.

Lemma main_handler_fails_witness :
  outcome (main example.isna example.os_path_join
             (example.installation [] (λ _, inr example.a_day))) =
  inl (NameError "traceback").
Proof.
  edestruct (main_handler_fails example.isna example.os_path_join
               (example.installation [] (λ _, inr example.a_day)))
    as (Hmain & _ & _).
  - reflexivity.
  - by rewrite Hmain.
Defined.

(** * Further properties *)

(** ** The calendar, at its end *)

Section calendar_end.

Import datetime.
Local Open Scope Z_scope.

Lemma days_in_year_bound y m d :
  1 ≤ m ≤ 12 → 1 ≤ d ≤ days_in_month y m →
  days_before_month y m + d ≤ 365 + (if is_leap y then 1 else 0).
Proof.
  intros Hm Hd. unfold days_before_month, days_in_month in *.
  assert (Hcases : m = 1 ∨ m = 2 ∨ m = 3 ∨ m = 4 ∨ m = 5 ∨ m = 6 ∨ m = 7 ∨
                   m = 8 ∨ m = 9 ∨ m = 10 ∨ m = 11 ∨ m = 12) by lia.
  destruct (is_leap y);
    repeat (destruct Hcases as [->|Hcases]; [simpl in *; lia|]);
    subst; simpl in *; lia.
Qed.

(** No date is later than the last day number. *)
Lemma toordinal_max d : valid d = true → toordinal d ≤ MAXORDINAL.
Proof.
  unfold valid, MINYEAR, MAXYEAR. intros Hv.
  repeat (apply andb_prop in Hv as [Hv ?]).
  pose proof (days_in_year_bound (year d) (month d) (day d)
                ltac:(lia) ltac:(lia)) as Hyear.
  unfold toordinal, MAXORDINAL.
  destruct (Z.eq_dec (year d) 9999) as [Hy|Hy].
  - rewrite Hy in *. change (is_leap 9999) with false in Hyear.
    cbv iota in Hyear. change (days_before_year 9999) with 3651694. lia.
  - assert (days_before_year (year d) ≤ 3651428).
    { unfold days_before_year. cbv zeta.
      pose proof (Z.div_lt_upper_bound (year d - 1) 4 2500 ltac:(lia) ltac:(lia)).
      pose proof (Z.div_lt_upper_bound (year d - 1) 400 25 ltac:(lia) ltac:(lia)).
      pose proof (Z.div_pos (year d - 1) 100 ltac:(lia) ltac:(lia)).
      lia. }
    destruct (is_leap (year d)); lia.
Qed.

End calendar_end.

(** ** [process_cams_data.py], further *)

Section further.

Context {coord : Type} `{EqDecision coord} (isna : coord → bool).
Context {extra record : Type}.
Variable os_path_join : string → string → string.

Local Abbreviation table := (list (row (coord:=coord) record)).
Local Abbreviation world := (world (coord:=coord) (extra:=extra) (record:=record)).
Local Abbreviation event := (event (coord:=coord) (extra:=extra) (record:=record)).
Local Abbreviation location := (row (coord:=coord) extra).
Local Abbreviation fetch_params := (fetch_params (coord:=coord)).

(** *** The choice of the file *)

Lemma insert_by_key_head x l :
  ∃ y rest, insert_by_key x l = y :: rest.
Proof. destruct l as [|y l]; simpl; [eauto|]. destruct (_ <=? _)%Z; eauto. Qed.

(** The first of a sorted list is the first of the least ones. *)
Lemma sort_by_key_head x l :
  ∃ before y after rest,
    x :: l = before ++ y :: after ∧
    sort_by_key (x :: l) = y :: rest ∧
    Forall (λ z, y.2 < z.2)%Z before ∧
    Forall (λ z, y.2 ≤ z.2)%Z after.
Proof.
  revert x. induction l as [|x' l IH]; intros x.
  - exists [], x, [], []. by repeat split.
  - destruct (IH x') as (before & y & after & rest & Hl & Hsort & Hb & Ha).
    unfold sort_by_key in *. cbn [foldr] in *. rewrite Hsort.
    cbn [insert_by_key].
    destruct (Z.leb_spec x.2 y.2) as [Hle|Hgt].
    + exists [], x, (x' :: l), (y :: rest).
      split; [done|]. split; [done|]. split; [constructor|].
      rewrite Hl. apply Forall_app. split.
      * eapply Forall_impl; [exact Hb|]. simpl. lia.
      * constructor; [done|]. eapply Forall_impl; [exact Ha|]. simpl. lia.
    + destruct (insert_by_key_head x rest) as (y' & rest' & ->).
      exists (x :: before), y, after, (y' :: rest').
      split; [by rewrite Hl|]. split; [done|].
      split; [by constructor|done].
Qed.

(** X1. From a folder that can be listed and has a regular file,
    [get_file_to_process] returns, without printing, the joined path of the
    regular file with the least creation time, the first listed of those
    when several have it. *)
Theorem get_file_to_process_oldest (w : world) (data_folder : string)
    (entries : list dirent) (f0 : dirent) :
  listdir w data_folder = inr entries →
  f0 ∈ entries → d_isfile f0 = true →
  ∃ before f after,
    filter (λ f, d_isfile f = true) entries = before ++ f :: after ∧
    Forall (λ g, d_ctime f < d_ctime g)%Z before ∧
    Forall (λ g, d_ctime f ≤ d_ctime g)%Z after ∧
    get_file_to_process os_path_join w data_folder =
      mret (Some (os_path_join data_folder (d_name f))).
Proof.
  intros Hlist Hin Hfile.
  set (files := filter (λ f, d_isfile f = true) entries).
  assert (Hf0 : f0 ∈ files) by (by apply list_elem_of_filter).
  set (key := λ f : dirent, (os_path_join data_folder (d_name f), d_ctime f)).
  destruct files as [|f1 files'] eqn:Hfiles; [by apply elem_of_nil in Hf0|].
  destruct (sort_by_key_head (key f1) (key <$> files'))
    as (before & y & after & rest & Hsplit & Hsort & Hb & Ha).
  change (key f1 :: (key <$> files')) with (key <$> (f1 :: files')) in Hsplit.
  apply fmap_app_inv in Hsplit as (before' & tail & -> & Htail & Heq).
  symmetry in Htail.
  apply fmap_cons_inv in Htail as (f & after' & -> & -> & ->).
  exists before', f, after'.
  split; [exact Heq|].
  rewrite Forall_fmap in Hb. rewrite Forall_fmap in Ha.
  split; [exact Hb|]. split; [exact Ha|].
  unfold get_file_to_process. rewrite Hlist, bind_lift_inr. cbv zeta.
  fold files. rewrite Hfiles. fold key.
  change (key f1 :: (key <$> files')) with (key <$> (f1 :: files')) in Hsort.
  change (key <$> f1 :: files') with (key f1 :: (key <$> files')).
  change (key <$> f1 :: files') with (key f1 :: (key <$> files')) in Hsort.
  by rewrite Hsort.
Qed.

(** *** The validator, on every input *)

Lemma expected_rows_events (output_data : table) start_date end_date time_step :
  events (expected_rows (extra:=extra) isna output_data start_date end_date
            time_step) = [].
Proof.
  unfold expected_rows. cbv zeta.
  destruct (datetime.strptime start_date) as [e|s]; [done|].
  rewrite bind_lift_inr.
  destruct (datetime.strptime end_date) as [e|e']; [done|].
  rewrite bind_lift_inr.
  destruct (String.eqb time_step "1M"); [done|].
  destruct (datetime.add_days e' 1) as [e|next]; [done|].
  rewrite bind_lift_inr.
  destruct (time_step_ref !! time_step) as [[m|]|]; by rewrite ?bind_ret.
Qed.

(** X2. Whatever its arguments, [validate_output] either returns True,
    having written the table it was given, unchanged, once, to
    <output_folder>\processed_cams_data_<today>.csv, or ends with an
    exception having written and printed nothing: it never returns False
    and never leaves a file behind a failure. *)
Theorem validate_output_all_or_nothing (w : world) (output_data : table)
    (start_date end_date time_step output_folder : string) :
  let result :=
    validate_output isna w output_data start_date end_date time_step
      output_folder in
  let found := Z.of_nat (length output_data) in
  (∃ e, result = raise e) ∨
  result =
    ([ ToCsv (output_folder +:+ String backslash "processed_cams_data_" +:+
              now w +:+ ".csv") output_data;
       Print (Text ("expected row count: " +:+ pretty found +:+
                    " found rows: " +:+ pretty found));
       Print (Text ("Output validation successful. Output saved to: " +:+
                    output_file_name w output_folder)) ],
     inr true).
Proof.
  cbv zeta. unfold validate_output. rewrite try_except_reraise.
  pose proof (expected_rows_events output_data start_date end_date time_step)
    as Hev.
  destruct (expected_rows isna output_data start_date end_date time_step)
    as [t [e|exp_rows]]; unfold events in Hev; simpl in Hev; subst t.
  - left. by exists e.
  - rewrite bind_run, after_nil. cbv zeta.
    case_bool_decide as Hfound.
    + right. by rewrite <- Hfound.
    + left. eauto.
Qed.

(** X3. When [end_date] is a day before [start_date], no table that has a
    row passes the validation of a step counted in minutes: the expected
    count is not positive, so [validate_output] raises its error of row
    counts. The same holds for the step 1M when the month of [end_date] is
    before the month of [start_date]. *)
Theorem validate_output_reversed_range :
  (∀ (w : world) (output_data : table)
     (start_date end_date time_step output_folder : string)
     (s e : datetime.datetime) (step_minutes : Z),
     datetime.strptime start_date = inr s →
     datetime.strptime end_date = inr e →
     (datetime.toordinal e < datetime.toordinal s)%Z →
     (time_step, step_minutes) ∈ sub_daily_steps →
     output_data ≠ [] →
     ∃ message,
       validate_output isna w output_data start_date end_date time_step
         output_folder = raise (ValueError message)) ∧
  (∀ (w : world) (output_data : table)
     (start_date end_date output_folder : string) (s e : datetime.datetime),
     datetime.strptime start_date = inr s →
     datetime.strptime end_date = inr e →
     (datetime.year e * 12 + datetime.month e <
      datetime.year s * 12 + datetime.month s)%Z →
     output_data ≠ [] →
     ∃ message,
       validate_output isna w output_data start_date end_date "1M"
         output_folder = raise (ValueError message)).
Proof.
  assert (Hfail : ∀ (w : world) (output_data : table) sd ed ts folder exp_rows,
            expected_rows (extra:=extra) isna output_data sd ed ts =
              mret exp_rows →
            (exp_rows ≤ 0)%Z → output_data ≠ [] →
            ∃ message,
              validate_output isna w output_data sd ed ts folder =
              raise (ValueError message)).
  { intros w output_data sd ed ts folder exp_rows Hexp Hle Hne.
    rewrite (validate_output_run isna w _ _ _ _ folder _ Hexp). cbv zeta.
    rewrite bool_decide_eq_false_2; [by eexists|].
    destruct output_data; [done|]. simpl length. lia. }
  split.
  - intros w output_data sd ed ts folder s e m Hs He Hlt Hstep Hne.
    pose proof (toordinal_max s (strptime_valid _ _ Hs)) as Hmax.
    eapply Hfail; [|..|exact Hne].
    + apply (expected_rows_minutes isna _ _ _ _ s e m); try done. lia.
    + unfold datetime.minutes_through.
      assert (Hm : (0 < m)%Z).
      { unfold sub_daily_steps in Hstep.
        rewrite !elem_of_cons, elem_of_nil in Hstep.
        destruct Hstep as [[= _ ->]|[[= _ ->]|[[= _ ->]|[]]]]; lia. }
      assert (Hdiv : (((datetime.toordinal e + 1 - datetime.toordinal s) * 24 * 60)
                      / m ≤ 0)%Z).
      { apply Z.div_le_upper_bound; lia. }
      nia.
  - intros w output_data sd ed folder s e Hs He Hlt Hne.
    eapply Hfail; [|..|exact Hne].
    + by apply (expected_rows_months isna _ _ _ s e).
    + nia.
Qed.

(** *** A fetch that succeeds *)

Lemma fetched_table_cons (r : location) rows (answer : nat → list record) :
  fetched_table (r :: rows) answer =
  ((λ d, Row (Latitude r) (Longitude r) d) <$> answer 0) ++
  fetched_table rows (answer ∘ S).
Proof. reflexivity. Qed.

Lemma fetch_loop_answers (w : world) (p : fetch_params)
    (answer : nat → list record) rows :
  ∀ i (cams_df : table),
    (∀ j r, rows !! j = Some r →
       get_cams w (i + j) (request_for p r) = inr (answer (i + j))) →
    fetch_loop w p (enumerate_from i rows) cams_df =
    (call_events p rows,
     inr (cams_df ++ fetched_table rows (λ j, answer (i + j)))).
Proof.
  induction rows as [|r0 rows IH]; intros i cams_df Hans.
  - simpl. by rewrite app_nil_r.
  - cbn [enumerate_from fetch_loop]. rewrite fetch_try_run.
    pose proof (Hans 0 r0 eq_refl) as H0. rewrite Nat.add_0_r in H0.
    rewrite H0, bind_run, IH, after_run.
    + rewrite (call_events_cons p r0), fetched_table_cons, Nat.add_0_r.
      f_equal. f_equal. rewrite <- app_assoc. f_equal. f_equal.
      unfold fetched_table. f_equal. apply imap_ext. intros j r _.
      unfold compose. do 2 f_equal. lia.
    + intros j r Hj. replace (S i + j) with (i + S j) by lia. by apply Hans.
Qed.

Lemma length_fetched_table (rows : list location) (answer : nat → list record) n :
  (∀ i, i < length rows → length (answer i) = n) →
  length (fetched_table rows answer) = length rows * n.
Proof.
  revert answer. induction rows as [|r rows IH]; intros answer Hn; [done|].
  rewrite fetched_table_cons, length_app, length_fmap, IH.
  - rewrite (Hn 0) by (simpl; lia). simpl. lia.
  - intros i Hi. apply Hn. simpl. lia.
Qed.

Lemma elem_of_fetched_table (rows : list location) (answer : nat → list record)
    (x : row record) :
  x ∈ fetched_table rows answer ↔
  ∃ i r d, rows !! i = Some r ∧ d ∈ answer i ∧
           x = Row (Latitude r) (Longitude r) d.
Proof.
  unfold fetched_table. rewrite list_elem_of_join. split.
  - intros (l & Hx & Hl).
    apply elem_of_lookup_imap in Hl as (i & r & -> & Hr).
    apply list_elem_of_fmap in Hx as (d & -> & Hd). eauto 6.
  - intros (i & r & d & Hr & Hd & ->).
    eexists. split; [|by eapply elem_of_lookup_imap_2].
    apply list_elem_of_fmap. eauto.
Qed.

Lemma fetch_cams_data_answers (w : world) (solar_data : list location)
    (p : fetch_params) (answer : nat → list record) :
  (∀ i r, solar_data !! i = Some r →
     get_cams w i (request_for p r) = inr (answer i)) →
  fetch_cams_data w solar_data p =
  (call_events p solar_data, inr (fetched_table solar_data answer)).
Proof.
  intros Hans. unfold fetch_cams_data, enumerate.
  by rewrite (fetch_loop_answers w p answer solar_data 0 []).
Qed.

(** X4. When the client answers every call, [fetch_cams_data] calls it once
    for each location, in the order of the table, and returns the answered
    records in that order, each with the latitude and the longitude of its
    location in front; the table has as many rows as the answers have
    together. *)
Theorem fetch_cams_data_success (w : world) (solar_data : list location)
    (p : fetch_params) (answer : nat → list record) :
  (∀ i r, solar_data !! i = Some r →
     get_cams w i (request_for p r) = inr (answer i)) →
  fetch_cams_data w solar_data p =
    (call_events p solar_data, inr (fetched_table solar_data answer)) ∧
  (∀ x, x ∈ fetched_table solar_data answer ↔
        ∃ i r d, solar_data !! i = Some r ∧ d ∈ answer i ∧
                 x = Row (Latitude r) (Longitude r) d) ∧
  length (fetched_table solar_data answer) =
    sum_list (imap (λ i _, length (answer i)) solar_data).
Proof.
  intros Hans. split; [|split].
  - by apply fetch_cams_data_answers.
  - apply elem_of_fetched_table.
  - clear Hans. revert answer.
    induction solar_data as [|r rows IH]; intros answer; [done|].
    rewrite fetched_table_cons, length_app, length_fmap, IH.
    by rewrite imap_cons.
Qed.

(** *** Fetching, then validating *)

Lemma nunique_subset (l k : list coord) :
  (∀ x, x ∈ l → isna x = false → x ∈ k) → nunique isna l ≤ nunique isna k.
Proof.
  intros Hsub. unfold nunique.
  apply submseteq_length, NoDup_submseteq; [apply NoDup_remove_dups|].
  intros x Hx.
  apply elem_of_remove_dups, list_elem_of_filter in Hx as [Hna Hx].
  apply elem_of_remove_dups, list_elem_of_filter. split; [done|].
  by apply Hsub.
Qed.


(** A value at two places of a list makes its distinct values fewer than
    its places. *)
Lemma nunique_repeated (l : list coord) i j x :
  i ≠ j → l !! i = Some x → l !! j = Some x → nunique isna l < length l.
Proof.
  intros Hij Hi Hj. unfold nunique.
  pose proof (lookup_lt_Some _ _ _ Hi) as Hlen.
  apply Nat.le_lt_trans with (length (delete i l)).
  - apply submseteq_length, NoDup_submseteq; [apply NoDup_remove_dups|].
    intros y Hy.
    apply elem_of_remove_dups, list_elem_of_filter in Hy as [_ Hy].
    apply list_elem_of_lookup in Hy as [k Hk].
    assert (Hother : ∃ k', k' ≠ i ∧ l !! k' = Some y).
    { destruct (decide (k = i)) as [->|Hne]; [|eauto].
      exists j. split; [done|]. congruence. }
    destruct Hother as (k' & Hne & Hk').
    apply list_elem_of_lookup.
    destruct (decide (k' < i)) as [Hlt|Hge].
    + exists k'. by rewrite list_lookup_delete_lt.
    + exists (k' - 1). rewrite list_lookup_delete_ge by lia.
      by replace (S (k' - 1)) with k' by lia.
  - rewrite length_delete by eauto. lia.
Qed.

Lemma latitudes_fetched_table (rows : list location) (answer : nat → list record) :
  nunique isna (Latitude <$> fetched_table rows answer) ≤
  nunique isna (Latitude <$> rows).
Proof.
  apply nunique_subset. intros x Hx _.
  apply list_elem_of_fmap in Hx as (y & -> & Hy).
  apply elem_of_fetched_table in Hy as (i & r & d & Hr & _ & ->).
  apply list_elem_of_fmap. exists r. split; [done|].
  by eapply list_elem_of_lookup_2.
Qed.



(** X6. Fetch, then validate, with a latitude in common. When two locations
    of the input have the same latitude, and the client answers for every
    location the same number, not zero, of records, the right one for the
    dates and the step, the table [fetch_cams_data] returns does not pass
    [validate_output]: it has more rows than the validator expects, and the
    error of row counts is raised. *)
Theorem fetch_then_validate_shared_latitude (w : world)
    (solar_data : list location) (p : fetch_params)
    (answer : nat → list record)
    (start_date end_date time_step output_folder : string)
    (s e : datetime.datetime) (step_minutes : Z)
    (i j : nat) (r1 r2 : location) :
  datetime.strptime start_date = inr s →
  datetime.strptime end_date = inr e →
  (datetime.toordinal e < datetime.MAXORDINAL)%Z →
  (time_step, step_minutes) ∈ sub_daily_steps →
  (∀ i r, solar_data !! i = Some r →
     get_cams w i (request_for p r) = inr (answer i)) →
  (∀ i, i < length solar_data →
     Z.of_nat (length (answer i)) =
     (datetime.minutes_through s e / step_minutes)%Z) →
  (0 < datetime.minutes_through s e / step_minutes)%Z →
  i ≠ j → solar_data !! i = Some r1 → solar_data !! j = Some r2 →
  Latitude r1 = Latitude r2 →
  ∃ cams_details message,
    fetch_cams_data w solar_data p =
      (call_events p solar_data, inr cams_details) ∧
    Z.of_nat (length cams_details) =
      (Z.of_nat (length solar_data) *
       (datetime.minutes_through s e / step_minutes))%Z ∧
    validate_output isna w cams_details start_date end_date time_step
      output_folder = raise (ValueError message).
Proof.
  intros Hs He Hlt Hstep Hans Hlen Hpos Hij Hi Hj Hlat.
  set (per := (datetime.minutes_through s e / step_minutes)%Z) in *.
  assert (Hrows : length (fetched_table solar_data answer) =
                  length solar_data * Z.to_nat per).
  { apply length_fetched_table. intros k Hk. rewrite <- (Hlen k Hk). lia. }
  pose proof (expected_rows_minutes isna (extra:=extra)
                (fetched_table solar_data answer) _ _ _ s e step_minutes
                Hs He Hlt Hstep) as Hexp.
  fold per in Hexp.
  eexists (fetched_table solar_data answer), _.
  split; [by apply fetch_cams_data_answers|].
  split; [rewrite Hrows; lia|].
  rewrite (validate_output_run isna w _ _ _ _ output_folder _ Hexp).
  cbv zeta. rewrite bool_decide_eq_false_2; [reflexivity|].
  pose proof (latitudes_fetched_table solar_data answer) as Hle.
  assert (Hdup : nunique isna (Latitude <$> solar_data) < length solar_data).
  { rewrite <- (length_fmap Latitude).
    apply (nunique_repeated _ i j (Latitude r1)); [done|..].
    - by rewrite list_lookup_fmap, Hi.
    - by rewrite list_lookup_fmap, Hj, Hlat. }
  rewrite Hrows. nia.
Qed.

(** *** The orchestrator, on every installation *)

Local Abbreviation saves_before_archiving fs m :=
  (nothing_saved m ∨ (saved_not_archived m ∧ refuses_archiving fs) ∨
   saved_and_archived m).

Lemma nothing_saved_fail (fs : io.file_errors) (t : list event) e :
  Forall (λ ev, saves_or_archives ev = false) t →
  saves_before_archiving fs (t, inl e).
Proof. intros Ht. left. by exists t, e. Qed.

Lemma saves_before_archiving_after (fs : io.file_errors) (t : list event)
    (m : M event unit) :
  Forall (λ ev, saves_or_archives ev = false) t →
  saves_before_archiving fs m → saves_before_archiving fs (after t m).
Proof.
  intros Ht [(t' & e & -> & Ht')|
             [[(t' & f & data & between & e & -> & Ht' & Hb) Hfs]|
              (t' & f & data & between & src & dst & -> & Ht' & Hb)]].
  - left. exists (t ++ t'), e. split; [done|]. by apply Forall_app.
  - right. left. split; [|done]. exists (t ++ t'), f, data, between, e.
    split; [|split; [by apply Forall_app|done]].
    rewrite after_run. by rewrite <- app_assoc.
  - right. right. exists (t ++ t'), f, data, between, src, dst.
    split; [|split; [by apply Forall_app|done]].
    rewrite after_run. by rewrite <- app_assoc.
Qed.

Lemma saves_before_archiving_bind {A} (fs : io.file_errors) (m : M event A)
    (k : A → M event unit) :
  Forall (λ ev, saves_or_archives ev = false) (events m) →
  (∀ a, saves_before_archiving fs (k a)) → saves_before_archiving fs (m ≫= k).
Proof.
  destruct m as [t [e|a]]; intros Ht Hk.
  - by apply nothing_saved_fail.
  - rewrite bind_run. by apply saves_before_archiving_after.
Qed.

(** The validator either raises, having written nothing, or saves the
    table, prints its two lines and returns True. *)
Lemma io_validate_output_cases (fs : io.file_errors) (w : world)
    (output_data : table)
    (start_date end_date time_step output_folder : string) :
  (∃ e, io.validate_output isna fs w output_data start_date end_date
          time_step output_folder = raise e) ∨
  io.validate_output isna fs w output_data start_date end_date time_step
    output_folder =
    ([ ToCsv (output_file_name w output_folder) output_data;
       Print (Text ("expected row count: " +:+
                    pretty (Z.of_nat (length output_data)) +:+
                    " found rows: " +:+
                    pretty (Z.of_nat (length output_data))));
       Print (Text ("Output validation successful. Output saved to: " +:+
                    output_file_name w output_folder)) ],
     inr true).
Proof.
  unfold io.validate_output. rewrite try_except_reraise.
  pose proof (expected_rows_events output_data start_date end_date time_step)
    as Hev.
  destruct (expected_rows isna output_data start_date end_date time_step)
    as [t [e|exp_rows]]; unfold events in Hev; simpl in Hev; subst t.
  - left. by exists e.
  - rewrite bind_run, after_nil. cbv zeta.
    case_bool_decide as Hfound; [|left; eauto].
    unfold io.to_csv.
    destruct (io.to_csv_fails fs (output_file_name w output_folder)) as [e|].
    + left. by exists e.
    + right. by rewrite <- Hfound.
Qed.

Lemma load_config_events (w : world) file_path :
  Forall (λ ev, saves_or_archives ev = false) (events (load_config w file_path)).
Proof.
  unfold load_config. destruct (json_load w file_path); by repeat constructor.
Qed.

Lemma getitem_events (config : gmap string string) key :
  Forall (λ ev : event, saves_or_archives ev = false)
    (events (getitem config key)).
Proof. unfold getitem. destruct (config !! key); constructor. Qed.

Lemma io_main_try_saves_before_archiving (fs : io.file_errors) (w : world) :
  saves_before_archiving fs (io.main_try isna os_path_join fs w).
Proof.
  unfold io.main_try.
  apply saves_before_archiving_bind; [by repeat constructor|intros _].
  apply saves_before_archiving_bind; [apply load_config_events|intros config].
  do 11 (apply saves_before_archiving_bind; [apply getitem_events|intros ?]).
  apply saves_before_archiving_bind; [by repeat constructor|intros _].
  apply saves_before_archiving_bind.
  { eapply Forall_impl; [apply get_file_to_process_events|].
    apply saves_or_archives_fetches. }
  intros [datafile|]; [|by apply nothing_saved_fail].
  unfold split_path. rewrite bind_ret.
  apply saves_before_archiving_bind; [by repeat constructor|intros _].
  apply saves_before_archiving_bind.
  { destruct (truthy (Some datafile)); by repeat constructor. }
  intros _.
  apply saves_before_archiving_bind.
  { unfold pd_read_csv, lift. destruct (read_csv w datafile); constructor. }
  intros solar_data.
  apply saves_before_archiving_bind; [by repeat constructor|intros _].
  apply saves_before_archiving_bind; [by repeat constructor|intros _].
  apply saves_before_archiving_bind; [apply fetch_loop_events|intros cams_details].
  apply saves_before_archiving_bind.
  { case_bool_decide; constructor. }
  intros _.
  match goal with
  | |- context [io.validate_output isna fs w ?d ?sd ?ed ?ts ?f] =>
      destruct (io_validate_output_cases fs w d sd ed ts f) as [[e ->]| ->]
  end.
  - by apply nothing_saved_fail.
  - rewrite bind_run. cbv beta iota.
    match goal with
    | |- context [path_exists w ?pf] =>
        assert (Hmk :
          (∃ e, io.makedirs_fails fs pf = Some e ∧
                (if path_exists w pf then mret tt else io.os_makedirs fs pf) =
                raise (E:=event) e) ∨
          (∃ mk,
             Forall (λ ev : event, prints_or_makes_folder ev = true) mk ∧
             (if path_exists w pf then mret tt else io.os_makedirs fs pf) =
             (mk, inr tt)))
    end.
    { unfold io.os_makedirs.
      destruct (path_exists w _); [right; by exists []|].
      destruct (io.makedirs_fails fs _) as [e|]; [left; by exists e|].
      right. eexists. split; [|reflexivity]. by repeat constructor. }
    destruct Hmk as [(e & Hrefused & ->)|(mk & Hmk & ->)].
    + rewrite bind_raise. unfold raise. rewrite after_run.
      right. left. split; [|left; eauto].
      eexists [], _, _, _, e. split; [reflexivity|].
      split; by repeat constructor.
    + rewrite bind_run, bind_emit. unfold io.os_rename.
      match goal with
      | |- context [io.rename_fails fs ?src ?dst] =>
          destruct (io.rename_fails fs src dst) as [e|] eqn:Hrename
      end.
      * unfold raise. rewrite !after_run.
        right. left. split; [|right; eauto].
        match goal with
        | |- saved_not_archived ([ToCsv ?f ?data; ?p1; ?p2] ++ mk ++ [?p3] ++ [], _) =>
            exists [], f, data, ([p1; p2] ++ mk ++ [p3]), e
        end.
        split; [|split; [constructor|]].
        -- reflexivity.
        -- apply Forall_app. split; [by repeat constructor|].
           apply Forall_app. split; [done|by repeat constructor].
      * unfold emit. rewrite !after_run.
        right. right.
        match goal with
        | |- saved_and_archived
               ([ToCsv ?f ?data; ?p1; ?p2] ++ mk ++ [?p3] ++ [Rename ?src ?dst], _) =>
            exists [], f, data, ([p1; p2] ++ mk ++ [p3]), src, dst
        end.
        split; [|split; [constructor|]].
        -- cbn [app]. by rewrite <- !app_assoc.
        -- apply Forall_app. split; [by repeat constructor|].
           apply Forall_app. split; [done|by repeat constructor].
Qed.

(** On a file system that refuses nothing, the runs are those of
    [validate_output] and [main]. *)
Lemma io_main_no_refusal (w : world) :
  io.main isna os_path_join io.no_refusal w = main isna os_path_join w.
Proof. reflexivity. Qed.

(** X7. On every installation and every file system, a run of [main] ends
    in one of three ways. It ends with an exception having saved no result,
    created no folder and renamed no file. Or it ends with an exception
    after it saved one result, with only prints and the creation of the
    processed folder after the save and no file renamed, which happens only
    when the file system refuses to create a folder or to rename a file. Or
    it completes, having saved one result and then renamed one file as its
    last step. So no file is ever archived without a saved result, and the
    exception a run ends with is always the NameError of [traceback]. *)
Theorem main_saves_before_archiving (fs : io.file_errors) (w : world) :
  (nothing_saved (io.main isna os_path_join fs w) ∨
   saved_not_archived (io.main isna os_path_join fs w) ∨
   saved_and_archived (io.main isna os_path_join fs w)) ∧
  (saved_not_archived (io.main isna os_path_join fs w) →
   refuses_archiving fs) ∧
  (∀ e, outcome (io.main isna os_path_join fs w) = inl e →
        e = NameError "traceback").
Proof.
  unfold io.main.
  destruct (io_main_try_saves_before_archiving fs w)
    as [(t & e & Htry & Ht)|
        [[(t & f & data & between & e & Htry & Ht & Hb) Hfs]|
         (t & f & data & between & src & dst & Htry & Ht & Hb)]];
    rewrite Htry.
  - rewrite try_except_fail, main_except_run, after_run.
    split; [|split].
    + left. eexists _, _. split; [reflexivity|].
      apply Forall_app. split; [done|by repeat constructor].
    + intros (t' & f & data & between & e' & Heq & Ht' & _).
      exfalso. injection Heq as Heq _.
      assert (Hin : ToCsv f data ∈
                t ++ [Print (ErrorText "Main: An error occured " e)]).
      { rewrite Heq. apply elem_of_app. right. apply list_elem_of_here. }
      apply elem_of_app in Hin as [Hin|Hin].
      * rewrite Forall_forall in Ht. by specialize (Ht _ Hin).
      * apply list_elem_of_singleton in Hin. discriminate.
    + by intros e' [= <-].
  - rewrite try_except_fail, main_except_run, after_run.
    split; [|split; [done|by intros e' [= <-]]].
    right. left.
    exists t, f, data,
      (between ++ [Print (ErrorText "Main: An error occured " e)]),
      (NameError "traceback").
    split; [by rewrite <- app_assoc|]. split; [done|].
    apply Forall_app. split; [done|by repeat constructor].
  - rewrite try_except_ok. split; [|split; [|done]].
    + right. right. by exists t, f, data, between, src, dst.
    + by intros (t' & f' & data' & between' & e' & [=] & _).
Qed.

Ltac io_configured Hload Hkeys :=
  unfold required_keys in Hkeys;
  repeat (apply Forall_cons in Hkeys as [? Hkeys]);
  unfold io.main, io.main_try, load_config; rewrite Hload;
  rewrite bind_emit;
  unfold lift; rewrite try_except_ok, bind_run, after_nil;
  rewrite !getitem_present, !bind_ret by done;
  rewrite bind_emit, after_after.

(** X8. A run in which every step succeeds. When the configuration has its
    keys, a file is chosen and read, the fetch returns a table that has
    rows, the validation saves it and returns True, and the file system
    refuses neither the creation of the processed folder, where it does not
    exist, nor the renaming, [main] completes: after the events of the
    validation it creates the processed folder if it does not exist, and it
    renames the chosen file to <processed_folder>\<last part of its path
    after a backslash>, as its last step. *)
Theorem main_success (fs : io.file_errors) (w : world)
    (config : gmap string string)
    (datafile : string) (solar_data : list location) (cams_details : table)
    (t_pick t_fetch t_save : list event) :
  let value := λ key, default "" (config !! key) in
  let processed_file :=
    value "processed_folder" +:+
    String backslash (default "" (last (str_split backslash datafile))) in
  json_load w "config.json" = inr config →
  Forall (λ key, is_Some (config !! key)) required_keys →
  get_file_to_process os_path_join w (value "unprocessed_folder") =
    (t_pick, inr (Some datafile)) →
  read_csv w datafile = inr solar_data →
  fetch_cams_data w solar_data
    (FetchParams (value "start_date") (value "end_date") (value "email")
       (value "sky_type") None (value "time_step") (value "time_reference")
       false false None true (Some (value "server_name"))
       (Some (value "timeout"))) = (t_fetch, inr cams_details) →
  cams_details ≠ [] →
  io.validate_output isna fs w cams_details (value "start_date")
    (value "end_date") (value "time_step") (value "results_folder") =
    (t_save, inr true) →
  (path_exists w (value "processed_folder") = false →
   io.makedirs_fails fs (value "processed_folder") = None) →
  io.rename_fails fs datafile processed_file = None →
  io.main isna os_path_join fs w =
    ([ Print (Text (getcwd w));
       Print (Tuple (value <$>
                [ "sky_type"; "start_date"; "end_date"; "time_step";
                  "time_reference"; "unprocessed_folder";
                  "processed_folder"; "results_folder"; "server_name";
                  "timeout"; "email" ])) ] ++
     t_pick ++
     [ Print (Text processed_file);
       Print (Text (if String.eqb datafile ""
                    then "There is no datafile to process."
                    else "Processing " +:+ datafile));
       Print (Head (take 5 solar_data));
       Print (Text (value "processed_folder")) ] ++
     t_fetch ++ t_save ++
     (if path_exists w (value "processed_folder") then []
      else [Makedirs (value "processed_folder")]) ++
     [ Print (Text processed_file); Rename datafile processed_file ],
     inr tt).
Proof.
  intros value processed_file Hload Hkeys Hpick Hread Hfetch Hrows Hsave
    Hmakedirs Hrename.
  subst processed_file value. cbv beta in *.
  io_configured Hload Hkeys.
  rewrite Hpick, bind_run. unfold split_path. rewrite bind_ret, bind_emit.
  unfold truthy.
  assert (Hsay :
    (if negb (String.eqb datafile "")
     then emit (Print (Text ("Processing " +:+ default "" (Some datafile))))
     else emit (Print (Text "There is no datafile to process."))) =
    emit (E:=event)
      (Print (Text (if String.eqb datafile ""
                    then "There is no datafile to process."
                    else "Processing " +:+ datafile)))).
  { by destruct (String.eqb datafile ""). }
  rewrite Hsay, bind_emit.
  unfold pd_read_csv. rewrite Hread, bind_lift_inr, !bind_emit.
  rewrite Hfetch, bind_run.
  rewrite bool_decide_eq_false_2 by (by destruct cams_details).
  rewrite bind_ret, Hsave, bind_run. cbv beta iota.
  unfold io.os_rename, io.os_makedirs. rewrite Hrename.
  destruct (path_exists w (default "" (config !! "processed_folder"))).
  - rewrite bind_ret. unfold emit.
    rewrite !after_run, try_except_ok. reflexivity.
  - rewrite Hmakedirs by done. rewrite bind_emit. unfold emit.
    rewrite !after_run, try_except_ok. reflexivity.
Qed.

(** Reading one key of the configuration: the run goes on when the key
    is there, and ends as the statement at hand says when it is not. *)
Ltac read_key config k :=
  let Hk := fresh "Hk" in
  destruct (config !! k) as [?|] eqn:Hk;
  [ rewrite (getitem_present config k) by eauto; rewrite bind_ret
  | exists k; split;
    [ apply (bool_decide_unpack _); reflexivity
    | split; [done|];
      unfold getitem; rewrite Hk, bind_raise; unfold raise;
      by rewrite after_run, try_except_fail, main_except_run ] ].

(** X9. When the configuration lacks a key that [main] reads, the run
    reads no folder, fetches nothing and saves nothing: it prints the
    working directory and the KeyError of a key that is missing, and ends
    with the NameError of [traceback]. *)
Theorem main_missing_key (w : world) (config : gmap string string)
    (key : string) :
  json_load w "config.json" = inr config →
  key ∈ required_keys →
  config !! key = None →
  ∃ missing,
    missing ∈ required_keys ∧ config !! missing = None ∧
    main isna os_path_join w =
      ([ Print (Text (getcwd w));
         Print (ErrorText "Main: An error occured " (KeyError missing)) ],
       inl (NameError "traceback")).
Proof.
  intros Hload Hkey Hnone.
  unfold main, main_try, load_config. rewrite Hload, bind_emit.
  unfold lift. rewrite try_except_ok, bind_run, after_nil.
  read_key config "sky_type". read_key config "start_date".
  read_key config "end_date". read_key config "time_step".
  read_key config "time_reference". read_key config "server_name".
  read_key config "timeout". read_key config "email".
  read_key config "unprocessed_folder". read_key config "processed_folder".
  read_key config "results_folder".
  exfalso. unfold required_keys in Hkey.
  rewrite !elem_of_cons, elem_of_nil in Hkey.
  repeat (destruct Hkey as [->|Hkey]; [congruence|]). done.
Qed.

(** The last part of a path *)

Lemma str_split_nonempty sep s : ∃ piece pieces, str_split sep s = piece :: pieces.
Proof.
  induction s as [|c s (piece & pieces & IH)]; simpl; [eauto|].
  destruct (Ascii.eqb c sep); [eauto|]. rewrite IH. eauto.
Qed.

Lemma str_split_app sep a b :
  str_split sep (a +:+ String sep b) = str_split sep a ++ str_split sep b.
Proof.
  induction a as [|c a IH]; simpl.
  - by rewrite Ascii.eqb_refl.
  - destruct (Ascii.eqb c sep); [by rewrite IH|].
    rewrite IH. by destruct (str_split_nonempty sep a) as (? & ? & ->).
Qed.

Lemma str_split_one sep s :
  sep ∉ String.list_ascii_of_string s → str_split sep s = [s].
Proof.
  induction s as [|c s IH]; simpl; [done|]. intros Hnot.
  apply not_elem_of_cons in Hnot as [Hne Hnot].
  destruct (Ascii.eqb_spec c sep) as [->|_]; [done|].
  by rewrite IH.
Qed.

(** X10. The name under which a file is archived. For a chosen file
    <folder>\<name>, where the name has no backslash, the last part that
    [main] takes of the path is the name, so the file keeps its name in the
    processed folder, whatever backslashes the folder has. *)
Theorem last_part_is_name (folder name : string) :
  backslash ∉ String.list_ascii_of_string name →
  default "" (last (str_split backslash (folder +:+ String backslash name))) =
  name.
Proof.
  intros Hname. rewrite str_split_app, (str_split_one _ name Hname).
  by rewrite last_snoc.
Qed.

(** *** The steps of the command line *)

(** X17. Of the five steps that the command line of [set_up.py] accepts,
    [validate_output] can count the expected rows for four; for the fifth,
    1d, it raises the KeyError of its table of steps, whatever the table
    of rows and the dates (that have a day after them) are. *)
Theorem accepted_time_steps (output_data : table)
    (start_date end_date time_step : string) (s e : datetime.datetime) :
  time_step ∈ time_step_choices →
  datetime.strptime start_date = inr s →
  datetime.strptime end_date = inr e →
  (datetime.toordinal e < datetime.MAXORDINAL)%Z →
  (time_step = "1d" ∧
   expected_rows (extra:=extra) isna output_data start_date end_date time_step =
     raise (KeyError "1d")) ∨
  (time_step ≠ "1d" ∧
   ∃ exp_rows : Z,
     expected_rows (extra:=extra) isna output_data start_date end_date
       time_step = mret exp_rows).
Proof.
  intros Hstep Hs He Hlt. unfold time_step_choices in Hstep.
  rewrite !elem_of_cons, elem_of_nil in Hstep.
  destruct Hstep as [->|[->|[->|[->|[->|[]]]]]].
  - right. split; [done|]. eexists.
    apply (expected_rows_minutes isna _ _ _ _ s e 1%Z); try done.
    apply (bool_decide_unpack _). reflexivity.
  - right. split; [done|]. eexists.
    apply (expected_rows_minutes isna _ _ _ _ s e 15%Z); try done.
    apply (bool_decide_unpack _). reflexivity.
  - right. split; [done|]. eexists.
    apply (expected_rows_minutes isna _ _ _ _ s e 60%Z); try done.
    apply (bool_decide_unpack _). reflexivity.
  - left. split; [done|].
    destruct (add_days_one e (strptime_valid _ _ He) Hlt)
      as (next & Hnext & _).
    unfold expected_rows. cbv zeta.
    rewrite Hs, bind_lift_inr, He, bind_lift_inr.
    replace (String.eqb "1d" "1M") with false by reflexivity.
    rewrite Hnext, bind_lift_inr.
    by replace (time_step_ref !! "1d") with (@None (option Z)) by reflexivity.
  - right. split; [done|]. eexists.
    by apply (expected_rows_months isna _ _ _ s e).
Qed.

End further.

(** ** [set_up.py], further *)

Section set_up_further.

Variable os_path_join : string → string → string.

(** *** Where the rows go *)

Lemma range_go_lookup_lt fuel start stop k :
  stop - start ≤ fuel →
  k < (stop - start + 99) / 100 →
  range_go fuel start stop chunk_size !! k = Some (start + k * chunk_size).
Proof.
  intros Hfuel Hk.
  rewrite <- (range_go_length fuel start stop Hfuel) in Hk.
  destruct (lookup_lt_is_Some_2 _ _ Hk) as [st Hst].
  rewrite Hst. by apply range_go_lookup in Hst as [-> _].
Qed.

(** What [chunk_data] does for a table that has a row. *)
Lemma chunk_data_run {A} (read_csv : string → exn + list A)
    (file_path output_folder : string) (rows : list A) :
  read_csv file_path = inr rows →
  1 ≤ length rows →
  let starts := range 0 (length rows) chunk_size in
  chunk_data os_path_join read_csv file_path output_folder =
  (imap (λ k st, ChunkToCsv
                   (os_path_join output_folder (chunk_file_name k))
                   (iloc rows st (st + chunk_size))) starts ++
   [SetupPrint ("Successfully created " +:+ pretty (length starts) +:+
                " chunked files in '" +:+ output_folder +:+ "'.")],
   inr (length starts)).
Proof.
  intros Hread Hrows starts.
  assert (Hlen : 1 ≤ length starts).
  { unfold starts, range. rewrite range_go_length by lia.
    rewrite Nat.sub_0_r.
    apply (Nat.div_le_lower_bound (length rows + 99) 100 1); lia. }
  unfold chunk_data. rewrite Hread, bind_lift_inr.
  fold starts. unfold enumerate. rewrite chunk_loop_run, bind_run.
  destruct starts as [|st starts'] eqn:Hstarts; [simpl in Hlen; lia|].
  cbv beta iota. rewrite bind_emit. unfold mret, M_ret.
  rewrite !after_run, app_nil_r.
  replace (0 + length (st :: starts') - 1 + 1) with (length (st :: starts'))
    by (simpl; lia).
  reflexivity.
Qed.

(** X11. Row number i of the input table (from 0) is row number i mod 100
    of the block that [chunk_data] writes as its step number i / 100, to
    the file unprocessed_data_<i / 100 + 1>.csv of the output folder. *)
Theorem chunk_data_row_place {A} (read_csv : string → exn + list A)
    (file_path output_folder : string) (rows : list A) (i : nat) (x : A) :
  read_csv file_path = inr rows →
  rows !! i = Some x →
  ∃ chunk,
    events (chunk_data os_path_join read_csv file_path output_folder)
      !! (i / 100) =
      Some (ChunkToCsv
              (os_path_join output_folder
                 ("unprocessed_data_" +:+ pretty (i / 100 + 1) +:+ ".csv"))
              chunk) ∧
    chunk !! (i mod 100) = Some x.
Proof.
  intros Hread Hi. pose proof (lookup_lt_Some _ _ _ Hi) as Hlt.
  rewrite (chunk_data_run read_csv _ _ rows Hread) by lia. cbv zeta.
  pose proof (Nat.div_mod_eq i 100) as Hdiv.
  pose proof (Nat.mod_upper_bound i 100 ltac:(lia)) as Hmod.
  assert (Hk : i / 100 < (length rows - 0 + 99) / 100).
  { apply Nat.Div0.div_lt_upper_bound.
    pose proof (Nat.div_mod_eq (length rows - 0 + 99) 100).
    pose proof (Nat.mod_upper_bound (length rows - 0 + 99) 100 ltac:(lia)).
    lia. }
  pose proof (range_go_lookup_lt (length rows) 0 (length rows) (i / 100)
                ltac:(lia) Hk) as Hst.
  fold (range 0 (length rows) chunk_size) in Hst.
  eexists. split.
  - unfold events. cbn [fst].
    rewrite lookup_app_l.
    + rewrite list_lookup_imap, Hst. reflexivity.
    + rewrite length_imap. by eapply lookup_lt_Some.
  - unfold iloc, chunk_size.
    rewrite lookup_take_lt by lia.
    rewrite lookup_drop. rewrite <- Hi. f_equal. lia.
Qed.

(** *** The names of the chunk files *)

Lemma length_append (a b : string) :
  String.length (a +:+ b) = String.length a + String.length b.
Proof. induction a as [|c a IH]; simpl; [done|]. by rewrite IH. Qed.

Lemma append_inj_l (s1 s2 t : string) : s1 +:+ t = s2 +:+ t → s1 = s2.
Proof.
  revert s2. induction s1 as [|c s1 IH]; intros [|c' s2] Heq.
  - done.
  - apply (f_equal String.length) in Heq.
    rewrite !length_append in Heq. simpl in Heq. lia.
  - apply (f_equal String.length) in Heq.
    rewrite !length_append in Heq. simpl in Heq. lia.
  - simpl in Heq. injection Heq as -> Heq. f_equal. by apply IH.
Qed.

Lemma chunk_file_name_inj i j : chunk_file_name i = chunk_file_name j → i = j.
Proof.
  unfold chunk_file_name. intros Heq.
  apply String.app_inj in Heq. apply append_inj_l in Heq.
  apply (inj pretty) in Heq. lia.
Qed.

(** X12. When [os.path.join] gives different paths for different names in
    the output folder, the files that one call of [chunk_data] writes all
    have different paths: no block is written over another. *)
Theorem chunk_files_distinct {A} (read_csv : string → exn + list A)
    (file_path output_folder : string) :
  (∀ a b, os_path_join output_folder a = os_path_join output_folder b →
          a = b) →
  NoDup (omap chunk_path
           (events (chunk_data os_path_join read_csv file_path output_folder))).
Proof.
  intros Hjoin.
  destruct (read_csv file_path) as [e|rows] eqn:Hread.
  { unfold chunk_data. rewrite Hread. constructor. }
  destruct rows as [|x rows'] eqn:Hrows.
  { unfold chunk_data. rewrite Hread, bind_lift_inr. constructor. }
  rewrite <- Hrows in *.
  rewrite (chunk_data_run read_csv _ _ rows Hread)
    by (rewrite Hrows; simpl; lia).
  cbv zeta. unfold events. cbn [fst].
  rewrite omap_app. cbn [omap chunk_path]. rewrite app_nil_r.
  apply NoDup_alt. intros i j path Hi Hj.
  assert (Hpath : ∀ k, omap chunk_path
            (imap (λ k st, ChunkToCsv
                     (os_path_join output_folder (chunk_file_name k))
                     (iloc rows st (st + chunk_size)))
               (range 0 (length rows) chunk_size)) !! k = Some path →
            path = os_path_join output_folder (chunk_file_name k)).
  { clear. generalize (range 0 (length rows) chunk_size). intros starts.
    assert (Hgen : ∀ (starts : list nat) n k,
      omap chunk_path
        (imap (λ k st, ChunkToCsv
                 (os_path_join output_folder (chunk_file_name (n + k)))
                 (iloc rows st (st + chunk_size))) starts) !! k = Some path →
      path = os_path_join output_folder (chunk_file_name (n + k))).
    { clear starts. induction starts as [|st starts IH]; intros n k Hk.
      - simpl in Hk. by rewrite lookup_nil in Hk.
      - rewrite imap_cons in Hk. cbn [omap chunk_path] in Hk.
        destruct k as [|k].
        + simpl in Hk. by injection Hk as <-.
        + simpl in Hk. replace (n + S k) with (S n + k) by lia.
          apply IH. erewrite imap_ext; [exact Hk|].
          intros k' st' _. simpl. do 3 f_equal. lia. }
    intros k Hk. apply (Hgen starts 0 k Hk). }
  apply Hpath in Hi. apply Hpath in Hj. subst path.
  by apply Hjoin, chunk_file_name_inj in Hj.
Qed.

(** *** The folders *)

(** X13. [set_up_folders] never raises: it returns the three paths
    <cwd>/unprocessed, <cwd>/processed and <cwd>/results when
    [os.makedirs] succeeds for all three, and otherwise nothing (None),
    after printing the error; the folders created before the one that
    failed are left in place, and none is tried after it. *)
Theorem set_up_folders_outcome {A} (w : setup_world A) :
  let unprocessed_folder := os_path_join (setup_getcwd w) "unprocessed" in
  let processed_folder := os_path_join (setup_getcwd w) "processed" in
  let results_folder := os_path_join (setup_getcwd w) "results" in
  let made ev :=
    match ev with SetupMakedirs path => Some path | _ => None end in
  outcome (set_up_folders os_path_join w) =
    inr (match makedirs_error w unprocessed_folder,
               makedirs_error w processed_folder,
               makedirs_error w results_folder with
         | None, None, None =>
             Some (unprocessed_folder, processed_folder, results_folder)
         | _, _, _ => None
         end) ∧
  omap made (events (set_up_folders os_path_join w)) =
    match makedirs_error w unprocessed_folder,
          makedirs_error w processed_folder,
          makedirs_error w results_folder with
    | Some _, _, _ => []
    | None, Some _, _ => [unprocessed_folder]
    | None, None, Some _ => [unprocessed_folder; processed_folder]
    | None, None, None =>
        [unprocessed_folder; processed_folder; results_folder]
    end.
Proof.
  cbv zeta. unfold set_up_folders, except_OSError, os_makedirs, OSError.
  cbv zeta. rewrite !bind_emit.
  destruct (makedirs_error w (os_path_join (setup_getcwd w) "unprocessed"))
    as [m1|]; [done|].
  rewrite bind_emit.
  destruct (makedirs_error w (os_path_join (setup_getcwd w) "processed"))
    as [m2|]; [done|].
  rewrite bind_emit.
  destruct (makedirs_error w (os_path_join (setup_getcwd w) "results"))
    as [m3|]; done.
Qed.

(** *** The whole script *)

Lemma set_up_folders_ok {A} (w : setup_world A) :
  let unprocessed_folder := os_path_join (setup_getcwd w) "unprocessed" in
  let processed_folder := os_path_join (setup_getcwd w) "processed" in
  let results_folder := os_path_join (setup_getcwd w) "results" in
  makedirs_error w unprocessed_folder = None →
  makedirs_error w processed_folder = None →
  makedirs_error w results_folder = None →
  set_up_folders os_path_join w =
  ([ SetupSay (SetupText (setup_getcwd w));
     SetupSay (SetupText ("Home dir is: " +:+ setup_getcwd w));
     SetupMakedirs unprocessed_folder;
     SetupMakedirs processed_folder;
     SetupMakedirs results_folder;
     SetupSay (SetupText "Folder structure created successfully.") ],
   inr (Some (unprocessed_folder, processed_folder, results_folder))).
Proof.
  cbv zeta. intros Hu Hp Hr.
  unfold set_up_folders, except_OSError, os_makedirs. cbv zeta.
  by rewrite Hu, Hp, Hr, !bind_emit.
Qed.

(** The statements of [main] of [set_up.py] down to the chunking, when the
    folders are created and the configuration file can be opened. *)
Lemma setup_main_configured {A} (w : setup_world A) (args : arguments) :
  let unprocessed_folder := os_path_join (setup_getcwd w) "unprocessed" in
  let processed_folder := os_path_join (setup_getcwd w) "processed" in
  let results_folder := os_path_join (setup_getcwd w) "results" in
  let config :=
    <["timeout" := "30"]>
      (<["server_name" := "api.soda-solardata.com"]>
         (<["results_folder" := results_folder]>
            (<["processed_folder" := processed_folder]>
               (<["unprocessed_folder" := unprocessed_folder]> (vars args))))) in
  makedirs_error w unprocessed_folder = None →
  makedirs_error w processed_folder = None →
  makedirs_error w results_folder = None →
  open_error w = None →
  setup_main os_path_join w args =
  try_except
    (after
       [ SetupSay (SetupParams (vars args));
         SetupSay (SetupText (setup_getcwd w));
         SetupSay (SetupText (setup_getcwd w));
         SetupSay (SetupText ("Home dir is: " +:+ setup_getcwd w));
         SetupMakedirs unprocessed_folder;
         SetupMakedirs processed_folder;
         SetupMakedirs results_folder;
         SetupSay (SetupText "Folder structure created successfully.");
         JsonDump "config.json" config;
         SetupSay (SetupText ("Config file created in the " +:+
                              setup_getcwd w +:+ ".")) ]
       (chunking (chunk_data os_path_join (setup_read_csv w)
                    (arg_file_path args) unprocessed_folder);;
        mret tt))
    (λ e, emit (SetupSay (SetupError "An error occured: " e))).
Proof.
  cbv zeta. intros Hu Hp Hr Hopen. unfold setup_main. cbv zeta.
  rewrite !bind_emit.
  rewrite (set_up_folders_ok w Hu Hp Hr), bind_run.
  unfold unpack. rewrite bind_ret.
  unfold create_config_file. rewrite Hopen, !bind_emit.
  unfold emit at 1. rewrite !after_run, try_except_ok, bind_run.
  unfold params_getitem.
  replace (_ !! "file_path") with (Some (arg_file_path args)) by reflexivity.
  rewrite bind_ret, !after_after. reflexivity.
Qed.

(** X14. What [set_up.py] leaves for [process_cams_data.py]. When the
    three folders are created and config.json can be opened, [main] of
    [set_up.py] writes to config.json a configuration that has every key
    that [main] of [process_cams_data.py] reads: the sky type, the dates,
    the step, the time reference and the e-mail of the command line as
    they were given, the three folders it created, the server
    api.soda-solardata.com and the time-out 30. *)
Theorem setup_main_config {A} (w : setup_world A) (args : arguments) :
  let unprocessed_folder := os_path_join (setup_getcwd w) "unprocessed" in
  let processed_folder := os_path_join (setup_getcwd w) "processed" in
  let results_folder := os_path_join (setup_getcwd w) "results" in
  makedirs_error w unprocessed_folder = None →
  makedirs_error w processed_folder = None →
  makedirs_error w results_folder = None →
  open_error w = None →
  ∃ config,
    JsonDump "config.json" config ∈ events (setup_main os_path_join w args) ∧
    Forall (λ key, is_Some (config !! key)) required_keys ∧
    config !! "sky_type" = Some (arg_sky_type args) ∧
    config !! "start_date" = Some (arg_start_date args) ∧
    config !! "end_date" = Some (arg_end_date args) ∧
    config !! "time_step" = Some (arg_time_step args) ∧
    config !! "time_reference" = Some (arg_time_reference args) ∧
    config !! "email" = Some (arg_email args) ∧
    config !! "unprocessed_folder" = Some unprocessed_folder ∧
    config !! "processed_folder" = Some processed_folder ∧
    config !! "results_folder" = Some results_folder ∧
    config !! "server_name" = Some "api.soda-solardata.com" ∧
    config !! "timeout" = Some "30".
Proof.
  cbv zeta. intros Hu Hp Hr Hopen.
  rewrite (setup_main_configured w args Hu Hp Hr Hopen).
  eexists. split; [|split].
  - destruct (chunk_data os_path_join (setup_read_csv w) (arg_file_path args)
                (os_path_join (setup_getcwd w) "unprocessed"))
      as [t [e|n]]; unfold events; simpl;
      do 8 apply list_elem_of_further; apply list_elem_of_here.
  - unfold required_keys. repeat constructor; by eexists.
  - repeat split; reflexivity.
Qed.

(** X15. A folder that cannot be created. When the creation of one of
    the three folders fails, [main] of [set_up.py] writes no configuration
    and no chunk; what it prints last is not the error of the folder but
    the TypeError of unpacking the None that [set_up_folders] returned; and
    having printed it, [main] returns. *)
Theorem setup_main_folder_failure {A} (w : setup_world A) (args : arguments)
    (path message : string) :
  path ∈ [ os_path_join (setup_getcwd w) "unprocessed";
           os_path_join (setup_getcwd w) "processed";
           os_path_join (setup_getcwd w) "results" ] →
  makedirs_error w path = Some message →
  last (events (setup_main os_path_join w args)) =
    Some (SetupSay (SetupError "An error occured: "
            (TypeError "cannot unpack non-iterable NoneType object"))) ∧
  Forall (λ ev, writes_a_file ev = false)
    (events (setup_main os_path_join w args)) ∧
  outcome (setup_main os_path_join w args) = inr tt.
Proof.
  intros Hpath Hfail.
  assert (Hnone : ∃ t,
    set_up_folders os_path_join w = (t, inr None) ∧
    Forall (λ ev, writes_a_file ev = false) t).
  { unfold set_up_folders, except_OSError, os_makedirs, OSError. cbv zeta.
    rewrite !bind_emit.
    destruct (makedirs_error w (os_path_join (setup_getcwd w) "unprocessed"))
      as [m1|] eqn:H1;
      [eexists; split; [reflexivity|by repeat constructor]|].
    rewrite bind_emit.
    destruct (makedirs_error w (os_path_join (setup_getcwd w) "processed"))
      as [m2|] eqn:H2;
      [eexists; split; [reflexivity|by repeat constructor]|].
    rewrite bind_emit.
    destruct (makedirs_error w (os_path_join (setup_getcwd w) "results"))
      as [m3|] eqn:H3;
      [eexists; split; [reflexivity|by repeat constructor]|].
    rewrite !elem_of_cons, elem_of_nil in Hpath.
    destruct Hpath as [->|[->|[->|[]]]]; congruence. }
  destruct Hnone as (t & Hfolders & Ht).
  unfold setup_main. cbv zeta. rewrite !bind_emit, Hfolders, bind_run.
  unfold unpack. rewrite bind_raise. unfold raise, emit.
  rewrite !after_run, try_except_fail, after_run.
  unfold events, outcome. cbn [fst snd]. split; [|split; [|done]].
  - rewrite app_nil_r, !app_assoc. apply last_snoc.
  - repeat (apply Forall_app; split); try done; by repeat constructor.
Qed.

(** X16. With an input table of no rows, [main] of [set_up.py] has
    created the folders and written config.json when [chunk_data] fails:
    no chunk file is written, and the error printed last is that of the
    loop variable [i], which no turn of the loop has bound. *)
Theorem setup_main_empty_input {A} (w : setup_world A) (args : arguments) :
  let unprocessed_folder := os_path_join (setup_getcwd w) "unprocessed" in
  let processed_folder := os_path_join (setup_getcwd w) "processed" in
  let results_folder := os_path_join (setup_getcwd w) "results" in
  makedirs_error w unprocessed_folder = None →
  makedirs_error w processed_folder = None →
  makedirs_error w results_folder = None →
  open_error w = None →
  setup_read_csv w (arg_file_path args) = inr [] →
  last (events (setup_main os_path_join w args)) =
    Some (SetupSay (SetupError "An error occured: " (UnboundLocalError "i"))) ∧
  Forall (λ ev, writes_a_chunk ev = false)
    (events (setup_main os_path_join w args)) ∧
  (∃ config,
     JsonDump "config.json" config ∈ events (setup_main os_path_join w args)).
Proof.
  cbv zeta. intros Hu Hp Hr Hopen Hread.
  rewrite (setup_main_configured w args Hu Hp Hr Hopen).
  rewrite (chunk_data_no_rows os_path_join (setup_read_csv w) _ _ Hread).
  unfold chunking, raise. cbn [fst snd fmap list_fmap].
  rewrite bind_fail, after_run, try_except_fail. unfold emit.
  rewrite after_run. unfold events. cbn [fst].
  split; [|split].
  - rewrite app_nil_r. reflexivity.
  - by repeat constructor.
  - eexists. simpl. do 8 apply list_elem_of_further. apply list_elem_of_here.
Qed.

End set_up_further.

(** ** The further properties at work on the example installation *)

Lemma get_file_to_process_oldest_witness :
  ∃ f, f ∈ example.pending ∧
    get_file_to_process example.os_path_join
      (example.installation example.pending (λ _, inr example.a_day))
      "unprocessed" =
    mret (Some (example.os_path_join "unprocessed" (d_name f))).
Proof.
  destruct (get_file_to_process_oldest example.os_path_join
              (example.installation example.pending (λ _, inr example.a_day))
              "unprocessed" example.pending
              (Dirent "unprocessed_data_1.csv" true 10%Z) eq_refl)
    as (before & f & after & Hsplit & _ & _ & Hrun).
  - apply list_elem_of_further, list_elem_of_here.
  - reflexivity.
  - exists f. split; [|exact Hrun].
    change (filter _ example.pending) with example.pending in Hsplit.
    rewrite Hsplit. apply elem_of_app. right. apply list_elem_of_here.
Defined.

Lemma validate_output_reversed_range_witness :
  ∃ message,
    validate_output (extra:=unit) example.isna
      (example.installation example.pending (λ _, inr example.a_day))
      example.two_days "2023-01-02" "2023-01-01" "1h" "results" =
    raise (ValueError message).
Proof.
  apply (proj1 (validate_output_reversed_range example.isna)
           (example.installation example.pending (λ _, inr example.a_day))
           example.two_days "2023-01-02" "2023-01-01" "1h" "results"
           (datetime.mk_datetime 2023 1 2) (datetime.mk_datetime 2023 1 1)
           60%Z).
  - reflexivity.
  - reflexivity.
  - reflexivity.
  - apply (bool_decide_unpack _). reflexivity.
  - discriminate.
Defined.

Lemma fetch_cams_data_success_witness :
  outcome (fetch_cams_data
             (example.installation example.pending (λ _, inr example.a_day))
             example.locations example.params) =
  inr example.two_days.
Proof.
  rewrite (proj1 (fetch_cams_data_success
                    (example.installation example.pending
                       (λ _, inr example.a_day))
                    example.locations example.params (λ _, example.a_day)
                    (λ i r _, eq_refl))).
  reflexivity.
Defined.


Lemma fetch_then_validate_shared_latitude_witness :
  ∃ cams_details message,
    fetch_cams_data
      (example_more.installation_of example_more.twins
         (λ _, inr example.a_day))
      example_more.twins example.params =
      (call_events example.params example_more.twins, inr cams_details) ∧
    Z.of_nat (length cams_details) = 48%Z ∧
    validate_output example.isna
      (example_more.installation_of example_more.twins
         (λ _, inr example.a_day))
      cams_details "2023-01-01" "2023-01-01" "1h" "results" =
    raise (ValueError message).
Proof.
  apply (fetch_then_validate_shared_latitude example.isna
           (example_more.installation_of example_more.twins
              (λ _, inr example.a_day))
           example_more.twins example.params (λ _, example.a_day)
           "2023-01-01" "2023-01-01" "1h" "results"
           (datetime.mk_datetime 2023 1 1) (datetime.mk_datetime 2023 1 1)
           60%Z 0 1 (Row 52%Z 4%Z tt) (Row 52%Z 13%Z tt)).
  - reflexivity.
  - reflexivity.
  - reflexivity.
  - apply (bool_decide_unpack _). reflexivity.
  - intros i r _. reflexivity.
  - intros i _. reflexivity.
  - reflexivity.
  - discriminate.
  - reflexivity.
  - reflexivity.
  - reflexivity.
Defined.

Lemma main_saves_before_archiving_witness :
  refuses_archiving example_more.no_rename.
Proof.
  apply (proj1 (proj2 (main_saves_before_archiving example.isna
                         example.os_path_join example_more.no_rename
                         (example.installation example.pending
                            (λ _, inr example.a_day))))).
  set (run := io.main example.isna example.os_path_join
                example_more.no_rename
                (example.installation example.pending
                   (λ _, inr example.a_day))).
  eexists (take 10 (events run)), _, _, (drop 11 (events run)), _.
  split; [reflexivity|]. split.
  - apply (bool_decide_unpack _). reflexivity.
  - apply (bool_decide_unpack _). reflexivity.
Defined.

Lemma main_success_witness :
  outcome (io.main example.isna example.os_path_join io.no_refusal
             (example.installation example.pending (λ _, inr example.a_day))) =
  inr tt.
Proof.
  erewrite (main_success example.isna example.os_path_join io.no_refusal
              (example.installation example.pending (λ _, inr example.a_day))
              example.config
              (example.os_path_join "unprocessed" "unprocessed_data_1.csv")
              example.locations example.two_days).
  - reflexivity.
  - reflexivity.
  - exact required_keys_example.
  - reflexivity.
  - reflexivity.
  - reflexivity.
  - discriminate.
  - reflexivity.
  - reflexivity.
  - reflexivity.
Defined.

Lemma main_missing_key_witness :
  ∃ missing,
    missing ∈ required_keys ∧
    delete "email" example.config !! missing = None ∧
    main example.isna example.os_path_join example_more.without_email =
      ([ Print (Text "C:");
         Print (ErrorText "Main: An error occured " (KeyError missing)) ],
       inl (NameError "traceback")).
Proof.
  apply (main_missing_key example.isna example.os_path_join
           example_more.without_email (delete "email" example.config)
           "email").
  - reflexivity.
  - apply (bool_decide_unpack _). reflexivity.
  - reflexivity.
Defined.

Lemma last_part_is_name_witness :
  default ""
    (last (str_split backslash
             ("C:\cams\unprocessed" +:+
              String backslash "unprocessed_data_1.csv"))) =
  "unprocessed_data_1.csv".
Proof.
  apply (last_part_is_name "C:\cams\unprocessed" "unprocessed_data_1.csv").
  apply (bool_decide_unpack _). reflexivity.
Defined.

Lemma chunk_data_row_place_witness :
  ∃ chunk,
    events (chunk_data example.os_path_join (λ _, inr (seq 0 250))
              "solar_farms.csv" "unprocessed") !! (237 / 100) =
      Some (ChunkToCsv
              (example.os_path_join "unprocessed"
                 ("unprocessed_data_" +:+ pretty (237 / 100 + 1) +:+ ".csv"))
              chunk) ∧
    chunk !! (237 mod 100) = Some 237.
Proof.
  apply (chunk_data_row_place example.os_path_join (λ _, inr (seq 0 250))
           "solar_farms.csv" "unprocessed" (seq 0 250) 237 237).
  - reflexivity.
  - reflexivity.
Defined.

Lemma os_path_join_example_inj folder a b :
  example.os_path_join folder a = example.os_path_join folder b → a = b.
Proof.
  unfold example.os_path_join. intros Heq.
  apply String.app_inj in Heq. by injection Heq.
Defined.

Lemma chunk_files_distinct_witness :
  NoDup (omap chunk_path
           (events (chunk_data example.os_path_join (λ _, inr (seq 0 250))
                      "solar_farms.csv" "unprocessed"))).
Proof.
  apply (chunk_files_distinct example.os_path_join (λ _, inr (seq 0 250))
           "solar_farms.csv" "unprocessed").
  apply os_path_join_example_inj.
Defined.

Lemma setup_main_config_witness :
  ∃ config,
    JsonDump "config.json" config ∈
      events (setup_main example.os_path_join example_more.first_run
                example_more.args) ∧
    Forall (λ key, is_Some (config !! key)) required_keys.
Proof.
  destruct (setup_main_config example.os_path_join example_more.first_run
              example_more.args eq_refl eq_refl eq_refl eq_refl)
    as (config & Hdump & Hkeys & _).
  by exists config.
Defined.

Lemma setup_main_folder_failure_witness :
  last (events (setup_main example.os_path_join example_more.read_only
                  example_more.args)) =
  Some (SetupSay (SetupError "An error occured: "
          (TypeError "cannot unpack non-iterable NoneType object"))).
Proof.
  destruct (setup_main_folder_failure example.os_path_join
              example_more.read_only example_more.args
              (example.os_path_join "C:" "processed")
              "[WinError 5] Access is denied")
    as [Hlast _].
  - apply list_elem_of_further, list_elem_of_here.
  - reflexivity.
  - exact Hlast.
Defined.

Lemma setup_main_empty_input_witness :
  last (events (setup_main example.os_path_join example_more.no_rows
                  example_more.args)) =
  Some (SetupSay (SetupError "An error occured: " (UnboundLocalError "i"))).
Proof.
  destruct (setup_main_empty_input example.os_path_join example_more.no_rows
              example_more.args eq_refl eq_refl eq_refl eq_refl eq_refl)
    as [Hlast _].
  exact Hlast.
Defined.

Lemma accepted_time_steps_witness :
  expected_rows (extra:=unit) example.isna example.two_days
    "2023-01-01" "2023-01-01" "1d" = raise (KeyError "1d").
Proof.
  destruct (accepted_time_steps example.isna (extra:=unit) example.two_days
              "2023-01-01" "2023-01-01" "1d"
              (datetime.mk_datetime 2023 1 1) (datetime.mk_datetime 2023 1 1))
    as [[_ Hkey]|[Hne _]].
  - apply (bool_decide_unpack _). reflexivity.
  - reflexivity.
  - reflexivity.
  - reflexivity.
  - exact Hkey.
  - by destruct Hne.
Defined.
